(** * Request pipeline of the Cosmos client: header assembly, one HTTP
      attempt, and the cached sub-resource accessors of [Container].

    The development follows [src/request/request.ts] ([getHeaders],
    [request]) and the [Container] class.  JavaScript objects that are
    shared between caller and callee (header maps, option bags) live in an
    explicit heap; everything the transport and the event loop decide is an
    explicit input of the model. *)

From stdpp Require Import gmap strings list fin_maps pretty.
From Stdlib Require Import ZArith Ascii.

Set Warnings "-register-all".

Local Open Scope Z_scope.
Local Open Scope string_scope.

(* ===================================================================== *)
(** ** JavaScript values *)
(* ===================================================================== *)

Module Js.

(** An [Error] object as far as the code inspects it: [error.name]. *)
Record Error := mkError { name : string; message : string }.

(** Structured data: what [response.json()] yields, what
    [JSON.stringify] consumes, and the shape of a partition key.
    Numbers are the integral ones. *)
Inductive Json :=
| JNull
| JBool (b : bool)
| JNum (n : Z)
| JStr (s : string)
| JArr (elems : list Json)
| JObj (fields : list (string * Json)).

(** [Array.isArray(x)] *)
Definition isArray (x : Json) : bool :=
  match x with JArr _ => true | _ => false end.

(** [x === null] *)
Definition isNull (x : Json) : bool :=
  match x with JNull => true | _ => false end.

(** A value of type [string | string[]]. *)
Inductive StringOrArray :=
| One (s : string)
| Many (ss : list string).

(** [a.join(",")] on an array of strings. *)
Fixpoint join (sep : string) (ss : list string) : string :=
  match ss with
  | [] => ""
  | [s] => s
  | s :: rest => s ++ sep ++ join sep rest
  end.

(** The truth value JavaScript gives a value in a condition. *)
Class Truthy (A : Type) := truthy : A → bool.
Global Hint Mode Truthy ! : typeclass_instances.

Global Instance string_truthy : Truthy string :=
  λ s, match s with EmptyString => false | _ => true end.
Global Instance number_truthy : Truthy Z := λ n, negb (Z.eqb n 0).
Global Instance bool_truthy : Truthy bool := λ b, b.
Global Instance string_or_array_truthy : Truthy StringOrArray :=
  λ x, match x with One s => truthy s | Many _ => true end.
(** [undefined] is falsy; a present field has the truth value of its
    content. *)
Global Instance field_truthy `{Truthy A} : Truthy (option A) :=
  λ o, match o with Some a => truthy a | None => false end.

(** Objects, arrays and functions are truthy whatever they hold, so an
    optional field of such a type is truthy exactly when it is set. *)
Definition isSet {A} (o : option A) : bool :=
  match o with Some _ => true | None => false end.

End Js.
Import Js.

(* ===================================================================== *)
(** ** Constants, verbs and option bags *)
(* ===================================================================== *)

Module Constants.

(** The members of [Constants.HttpHeaders] that the request code names. *)
Inductive HttpHeaderName :=
| Authorization | ContentType | Accept | Continuation | PageSize
| ActivityId | PreTriggerInclude | PostTriggerInclude | OfferType
| OfferThroughput | IfMatch | IfNoneMatch | A_IM | IndexingDirective
| ConsistencyLevel | ResourceTokenExpiry | SessionToken
| EnableScanInQuery | EnableCrossPartitionQuery | PopulateQuotaInfo
| PopulateQueryMetrics | ParallelizeCrossPartitionQuery | PartitionKey
| XDate | PartitionKeyRangeID | EnableScriptLogging
| OfferIsRUPerMinuteThroughputEnabled | DisableRUPerMinuteUsage
| ALLOW_MULTIPLE_WRITES | SubStatus | RetryAfterInMilliseconds.

Global Instance name_eq_dec : EqDecision HttpHeaderName.
Proof. solve_decision. Defined.

(** The table of [../common] itself is not part of the sources at hand:
    it is a parameter, a wire name per member and the JSON media type. *)
Record t := mk {
  HttpHeaders : HttpHeaderName → string;
  MediaTypes_Json : string
}.

(** Two members never share a wire name. *)
Definition distinct (c : t) : Prop := Inj (=) (=) (HttpHeaders c).

End Constants.
Import Constants.

Module HTTPMethod.
Inductive t := get | post | put | delete.

Global Instance eq_dec : EqDecision t.
Proof. solve_decision. Defined.
End HTTPMethod.

Definition ResourceType := string.

(** A header value: [string | boolean | number]. *)
Inductive HeaderValue :=
| HStr (s : string)
| HNum (n : Z)
| HBool (b : bool).

Global Instance header_value_eq_dec : EqDecision HeaderValue.
Proof. solve_decision. Defined.

Global Instance header_value_truthy : Truthy HeaderValue :=
  λ v, match v with
       | HStr s => truthy s
       | HNum n => truthy n
       | HBool b => truthy b
       end.

(** [CosmosHeaders]: a plain object used as a map from header name to
    value. *)
Abbreviation CosmosHeaders := (gmap string HeaderValue).

Record AccessCondition := mkAccessCondition {
  type : string;
  condition : string
}.

(** [RequestOptions & FeedOptions], restricted to the fields [getHeaders]
    reads; [None] is [undefined]. *)
Record Options := mkOptions {
  continuation : option string;
  preTriggerInclude : option StringOrArray;
  postTriggerInclude : option StringOrArray;
  offerType : option string;
  offerThroughput : option Z;
  maxItemCount : option Z;
  accessCondition : option AccessCondition;
  useIncrementalFeed : option bool;
  indexingDirective : option string;
  consistencyLevel : option string;
  resourceTokenExpirySeconds : option Z;
  sessionToken : option string;
  enableScanInQuery : option bool;
  enableCrossPartitionQuery : option bool;
  populateQuotaInfo : option bool;
  populateQueryMetrics : option bool;
  maxDegreeOfParallelism : option Z;
  partitionKey : option Json;
  enableScriptLogging : option bool;
  offerEnableRUPerMinuteThroughput : option bool;
  disableRUPerMinuteUsage : option bool
}.

(** The empty object [{}] read as an option bag. *)
Definition noOptions : Options :=
  mkOptions None None None None None None None None None None None
            None None None None None None None None None None.

Global Instance options_inhabited : Inhabited Options := populate noOptions.

Record Permission := mkPermission { resource : string; token : string }.

(** [AuthOptions]; the token provider is a callback from the request's
    verb, path, resource id and resource type to a token, and may fail. *)
Record AuthOptions := mkAuthOptions {
  masterKey : option string;
  key : option string;
  resourceTokens : option (list (string * string));
  tokenProvider :
    option (HTTPMethod.t → string → string → ResourceType → Error + string);
  permissionFeed : option (list Permission)
}.

(* ===================================================================== *)
(** ** The heap of caller-visible objects *)
(* ===================================================================== *)

Definition loc := nat.

Record Heap := mkHeap {
  headerObjects : gmap loc (gmap string HeaderValue);
  optionObjects : gmap loc Options
}.

(** [obj[k]] *)
Definition readHeader (obj : loc) (k : string) (σ : Heap) : option HeaderValue :=
  (headerObjects σ !!! obj) !! k.

(** [obj[k] = v] *)
Definition assign (obj : loc) (k : string) (v : HeaderValue) (σ : Heap) : Heap :=
  mkHeap (<[obj := <[k := v]> (headerObjects σ !!! obj)]> (headerObjects σ))
         (optionObjects σ).

(** [{ ...src }]: a new object holding the own properties of [src]. *)
Definition spread (src : loc) (σ : Heap) : loc * Heap :=
  let fresh_obj := fresh (dom (headerObjects σ)) in
  (fresh_obj,
   mkHeap (<[fresh_obj := headerObjects σ !!! src]> (headerObjects σ))
          (optionObjects σ)).

(** [options || {}]: the option bag behind the reference, the empty one
    when no reference is passed. *)
Definition readOptions (options : option loc) (σ : Heap) : Options :=
  match options with
  | Some o => optionObjects σ !!! o
  | None => noOptions
  end.

(** [if (c) step] *)
Definition when (c : bool) (step : Heap → Heap) (σ : Heap) : Heap :=
  if c then step σ else σ.

(** [if (field) step(field)] for an optional field tested for truthiness. *)
Definition whenTruthy {A} `{Truthy A} (field : option A)
    (step : A → Heap → Heap) (σ : Heap) : Heap :=
  match field with
  | Some a => if truthy a then step a σ else σ
  | None => σ
  end.

(** [if (field !== undefined) step(field)] *)
Definition whenDefined {A} (field : option A)
    (step : A → Heap → Heap) (σ : Heap) : Heap :=
  match field with
  | Some a => step a σ
  | None => σ
  end.

(** What a step leaves as it finds it. *)
Definition preserves {X} (obs : Heap → X) (step : Heap → Heap) : Prop :=
  ∀ σ, obs (step σ) = obs σ.

(** The object behind a reference. *)
Definition objectAt (l : loc) (σ : Heap) : option (gmap string HeaderValue) :=
  headerObjects σ !! l.

(** Whether a reference denotes an object. *)
Definition live (l : loc) (σ : Heap) : bool := isSet (objectAt l σ).

(** A step after which every reference that denoted an object still does. *)
Definition keepsLive (step : Heap → Heap) : Prop :=
  ∀ l σ, live l σ = true → live l (step σ) = true.

(* ===================================================================== *)
(** ** [getHeaders] *)
(* ===================================================================== *)

(** What [getHeaders] takes from modules that are not part of the sources
    at hand: the constants table, the partition-key serialiser of
    [../common] and the signer of [../auth].  The signer receives the
    headers object and fills it in; its effect is given as the new content
    of that object, or the error it throws. *)
Record Collaborators := mkCollaborators {
  constants : Constants.t;
  jsonStringifyAndEscapeNonASCII : Json → string;
  setAuthorizationHeader :
    AuthOptions → HTTPMethod.t → string → string → ResourceType →
    gmap string HeaderValue → Error + gmap string HeaderValue
}.

Section GetHeaders.

Context (env : Collaborators).

Local Abbreviation HttpHeaders := (Constants.HttpHeaders (constants env)).
Local Abbreviation MediaTypes_Json := (Constants.MediaTypes_Json (constants env)).

(** [x.constructor === Array ? x.join(",") : x] *)
Definition triggerList (x : StringOrArray) : string :=
  match x with
  | Many ss => join "," ss
  | One s => s
  end.

(** Lines 44-169: everything up to the authorization step.  [now] is
    what [new Date().toUTCString()] returns at line 142. *)
Definition assembleHeaders
    (authOptions : AuthOptions) (defaultHeaders : loc)
    (verb : HTTPMethod.t) (options : option loc)
    (partitionKeyRangeId : option string)
    (useMultipleWriteLocations : option bool)
    (now : string) (σ : Heap) : loc * Heap :=
  let '(headers, σ) := spread defaultHeaders σ in
  let opts : Options := readOptions options σ in
  let σ := when (truthy useMultipleWriteLocations)
             (assign headers (HttpHeaders ALLOW_MULTIPLE_WRITES) (HBool true)) σ in
  let σ := whenTruthy (continuation opts)
             (λ v, assign headers (HttpHeaders Continuation) (HStr v)) σ in
  let σ := whenTruthy (preTriggerInclude opts)
             (λ v, assign headers (HttpHeaders PreTriggerInclude)
                     (HStr (triggerList v))) σ in
  let σ := whenTruthy (postTriggerInclude opts)
             (λ v, assign headers (HttpHeaders PostTriggerInclude)
                     (HStr (triggerList v))) σ in
  let σ := whenTruthy (offerType opts)
             (λ v, assign headers (HttpHeaders OfferType) (HStr v)) σ in
  let σ := whenTruthy (offerThroughput opts)
             (λ v, assign headers (HttpHeaders OfferThroughput) (HNum v)) σ in
  let σ := whenTruthy (maxItemCount opts)
             (λ v, assign headers (HttpHeaders PageSize) (HNum v)) σ in
  let σ := whenDefined (accessCondition opts)
             (λ ac, if String.eqb (type ac) "IfMatch"
                    then assign headers (HttpHeaders IfMatch) (HStr (condition ac))
                    else assign headers (HttpHeaders IfNoneMatch) (HStr (condition ac))) σ in
  let σ := when (truthy (useIncrementalFeed opts))
             (assign headers (HttpHeaders A_IM) (HStr "Incremental Feed")) σ in
  let σ := whenTruthy (indexingDirective opts)
             (λ v, assign headers (HttpHeaders IndexingDirective) (HStr v)) σ in
  let σ := whenTruthy (consistencyLevel opts)
             (λ v, assign headers (HttpHeaders ConsistencyLevel) (HStr v)) σ in
  let σ := whenTruthy (resourceTokenExpirySeconds opts)
             (λ v, assign headers (HttpHeaders ResourceTokenExpiry) (HNum v)) σ in
  let σ := whenTruthy (sessionToken opts)
             (λ v, assign headers (HttpHeaders SessionToken) (HStr v)) σ in
  let σ := whenTruthy (enableScanInQuery opts)
             (λ v, assign headers (HttpHeaders EnableScanInQuery) (HBool v)) σ in
  let σ := whenTruthy (enableCrossPartitionQuery opts)
             (λ v, assign headers (HttpHeaders EnableCrossPartitionQuery) (HBool v)) σ in
  let σ := whenTruthy (populateQuotaInfo opts)
             (λ v, assign headers (HttpHeaders PopulateQuotaInfo) (HBool v)) σ in
  let σ := whenTruthy (populateQueryMetrics opts)
             (λ v, assign headers (HttpHeaders PopulateQueryMetrics) (HBool v)) σ in
  let σ := when (isSet (maxDegreeOfParallelism opts))
             (assign headers (HttpHeaders ParallelizeCrossPartitionQuery) (HBool true)) σ in
  let σ := when (truthy (populateQuotaInfo opts))
             (assign headers (HttpHeaders PopulateQuotaInfo) (HBool true)) σ in
  let σ := whenDefined (partitionKey opts)
             (λ pk,
                let partitionKey :=
                  if isNull pk || negb (isArray pk) then JArr [pk] else pk in
                assign headers (HttpHeaders PartitionKey)
                  (HStr (jsonStringifyAndEscapeNonASCII env partitionKey))) σ in
  let σ := when (truthy (masterKey authOptions) || truthy (key authOptions)
                 || isSet (tokenProvider authOptions))
             (assign headers (HttpHeaders XDate) (HStr now)) σ in
  let σ := when (bool_decide (verb = HTTPMethod.post)
                 || bool_decide (verb = HTTPMethod.put))
             (λ σ, when (negb (truthy (readHeader headers (HttpHeaders ContentType) σ)))
                     (assign headers (HttpHeaders ContentType) (HStr MediaTypes_Json)) σ) σ in
  let σ := when (negb (truthy (readHeader headers (HttpHeaders Accept) σ)))
             (assign headers (HttpHeaders Accept) (HStr MediaTypes_Json)) σ in
  let σ := whenDefined partitionKeyRangeId
             (λ v, assign headers (HttpHeaders PartitionKeyRangeID) (HStr v)) σ in
  let σ := whenTruthy (enableScriptLogging opts)
             (λ v, assign headers (HttpHeaders EnableScriptLogging) (HBool v)) σ in
  let σ := when (truthy (offerEnableRUPerMinuteThroughput opts))
             (assign headers (HttpHeaders OfferIsRUPerMinuteThroughputEnabled)
                (HBool true)) σ in
  let σ := when (truthy (disableRUPerMinuteUsage opts))
             (assign headers (HttpHeaders DisableRUPerMinuteUsage) (HBool true)) σ in
  (headers, σ).

(** The guard of lines 170-176. *)
Definition needsAuthorization (authOptions : AuthOptions) : bool :=
  truthy (masterKey authOptions) || truthy (key authOptions)
  || isSet (resourceTokens authOptions) || isSet (tokenProvider authOptions)
  || isSet (permissionFeed authOptions).

(** [getHeaders]: the promise settles with the headers object ([inr]) or
    with what the signer threw ([inl]). *)
Definition getHeaders
    (authOptions : AuthOptions) (defaultHeaders : loc)
    (verb : HTTPMethod.t) (path resourceId : string)
    (resourceType : ResourceType) (options : option loc)
    (partitionKeyRangeId : option string)
    (useMultipleWriteLocations : option bool)
    (now : string) (σ : Heap) : (Error + loc) * Heap :=
  let '(headers, σ) :=
    assembleHeaders authOptions defaultHeaders verb options
      partitionKeyRangeId useMultipleWriteLocations now σ in
  if needsAuthorization authOptions then
    match setAuthorizationHeader env authOptions verb path resourceId
            resourceType (headerObjects σ !!! headers) with
    | inr signed =>
        (inr headers,
         mkHeap (<[headers := signed]> (headerObjects σ)) (optionObjects σ))
    | inl thrown => (inl thrown, σ)
    end
  else (inr headers, σ).

End GetHeaders.

(** The authorization step writes the authorization header and nothing
    else. *)
Definition signsOnly (env : Collaborators) : Prop :=
  ∀ authOptions verb path resourceId resourceType hs hs',
    setAuthorizationHeader env authOptions verb path resourceId resourceType hs
      = inr hs' →
    ∀ k, k ≠ Constants.HttpHeaders (constants env) Authorization →
         hs' !! k = hs !! k.

(* ===================================================================== *)
(** ** Built-ins of the language used by [request] *)
(* ===================================================================== *)

Module Builtins.

(** A JavaScript number as [parseInt] produces it. *)
Inductive Number :=
| NaN
| Num (n : Z).

Fixpoint skipSpaces (s : string) : string :=
  match s with
  | String a rest => if Ascii.is_space a then skipSpaces rest else s
  | EmptyString => EmptyString
  end.

(** The value of the longest prefix of decimal digits, if there is one. *)
Fixpoint digits (acc : option Z) (s : string) : option Z :=
  match s with
  | String a rest =>
      match Ascii.is_nat a with
      | Some d => digits (Some (10 * default 0 acc + Z.of_nat d)) rest
      | None => acc
      end
  | EmptyString => acc
  end.

(** [parseInt(s, 10)]: leading white space, an optional sign, then
    digits; whatever follows the digits is ignored. *)
Definition parseInt10 (s : string) : Number :=
  let s := skipSpaces s in
  let '(sign, s) :=
    match s with
    | String "-"%char rest => (-1, rest)
    | String "+"%char rest => (1, rest)
    | _ => (1, s)
    end in
  match digits None s with
  | Some n => Num (sign * n)
  | None => NaN
  end.

Definition dquote : ascii := "034"%char.
Definition backslash : ascii := "092"%char.

Definition hexDigit (n : N) : ascii :=
  Ascii.ascii_of_N (if (n <? 10)%N then 48 + n else 87 + n)%N.

(** One character of a string inside a JSON text. *)
Definition quoteChar (a : ascii) : string :=
  let esc (c : ascii) := String backslash (String c EmptyString) in
  let n := Ascii.N_of_ascii a in
  if Ascii.eqb a dquote then esc dquote
  else if Ascii.eqb a backslash then esc backslash
  else if (n =? 8)%N then esc "b"%char
  else if (n =? 9)%N then esc "t"%char
  else if (n =? 10)%N then esc "n"%char
  else if (n =? 12)%N then esc "f"%char
  else if (n =? 13)%N then esc "r"%char
  else if (n <? 32)%N then
    String backslash
      (String "u"%char (String "0"%char (String "0"%char
        (String (hexDigit (n / 16)) (String (hexDigit (n mod 16)) EmptyString)))))
  else String a EmptyString.

Fixpoint quoteChars (s : string) : string :=
  match s with
  | String a rest => quoteChar a ++ quoteChars rest
  | EmptyString => EmptyString
  end.

Definition quote (s : string) : string :=
  String dquote (quoteChars s ++ String dquote EmptyString).

(** [JSON.stringify(x)] *)
Fixpoint JSON_stringify (x : Json) : string :=
  match x with
  | JNull => "null"
  | JBool true => "true"
  | JBool false => "false"
  | JNum n => pretty n
  | JStr s => quote s
  | JArr elems => "[" ++ join "," (map JSON_stringify elems) ++ "]"
  | JObj fields =>
      "{" ++ join ","
               (map (λ kv, quote (fst kv) ++ ":" ++ JSON_stringify (snd kv)) fields)
          ++ "}"
  end.

End Builtins.
Import Builtins.

(* ===================================================================== *)
(** ** [request]: one HTTP attempt *)
(* ===================================================================== *)

Record ConnectionPolicy := mkConnectionPolicy { requestTimeout : Z }.

(** Node's request options as [request] reads them. *)
Record NodeRequestOptions := mkNodeRequestOptions {
  href : string;
  path : string;
  method : HTTPMethod.t;
  headers : gmap string HeaderValue;
  agent : option string
}.

(** The caller's [AbortSignal] when the call starts. *)
Record AbortSignal := mkAbortSignal { aborted : bool }.

Module Fetch.

(** What the transport hands back: the status line, the header entries in
    the order [forEach] visits them, and how [response.json()] settles. *)
Record Response := mkResponse {
  status : Z;
  entries : list (string * string);
  json : Error + Json
}.

(** The second argument of [fetch], with the signal's state at the call. *)
Record Init := mkInit {
  init_url : string;
  init_method : HTTPMethod.t;
  init_headers : gmap string HeaderValue;
  init_agent : option string;
  init_signal_aborted : bool;
  init_body : option string
}.

End Fetch.

(** What the event loop may run while [request] awaits the transport. *)
Inductive Event :=
| TimerExpires
| UserAborts.

Global Instance event_eq_dec : EqDecision Event.
Proof. solve_decision. Defined.

(** One exchange as the environment plays it: the events delivered while
    the [fetch] promise is pending, then how that promise settles. *)
Record Exchange := mkExchange {
  whileFetching : list Event;
  settles : Error + Fetch.Response
}.

Inductive TimerState :=
| Pending
| Fired
| Cleared.

Global Instance timer_state_eq_dec : EqDecision TimerState.
Proof. solve_decision. Defined.

(** The mutable state one call of [request] touches. *)
Record World := mkWorld {
  timeout : option TimerState;      (* the timer of line 191, once set *)
  controller_aborted : bool;        (* controller.signal.aborted *)
  user_aborted : bool;              (* userSignal.aborted *)
  user_listener : bool;             (* the listener of line 200 is attached *)
  fetch_calls : list Fetch.Init;    (* the calls made to the transport *)
  json_calls : nat                  (* the bodies asked to be parsed *)
}.

(** [controller.abort()] *)
Definition abort (w : World) : World :=
  mkWorld (timeout w) true (user_aborted w) (user_listener w)
          (fetch_calls w) (json_calls w).

(** [setTimeout(() => controller.abort(), ms)] *)
Definition setTimeout (ms : Z) (w : World) : World :=
  mkWorld (Some Pending) (controller_aborted w) (user_aborted w)
          (user_listener w) (fetch_calls w) (json_calls w).

(** [clearTimeout(timeout)]: a pending timer is cancelled, one that has
    fired stays as it is. *)
Definition clearTimeout (w : World) : World :=
  mkWorld (match timeout w with
           | Some Pending => Some Cleared
           | other => other
           end)
          (controller_aborted w) (user_aborted w) (user_listener w)
          (fetch_calls w) (json_calls w).

(** [userSignal.addEventListener("abort", () => controller.abort())] *)
Definition addEventListener (w : World) : World :=
  mkWorld (timeout w) (controller_aborted w) (user_aborted w) true
          (fetch_calls w) (json_calls w).

Definition recordFetch (init : Fetch.Init) (w : World) : World :=
  mkWorld (timeout w) (controller_aborted w) (user_aborted w)
          (user_listener w) (fetch_calls w ++ [init]) (json_calls w).

Definition recordJson (w : World) : World :=
  mkWorld (timeout w) (controller_aborted w) (user_aborted w)
          (user_listener w) (fetch_calls w) (S (json_calls w)).

(** The event loop runs one callback.  A timer fires only while pending,
    and its callback aborts the controller; the caller aborting the signal
    they passed (if they passed one) runs the attached listener. *)
Definition deliver (hasUserSignal : bool) (w : World) (ev : Event) : World :=
  match ev with
  | TimerExpires =>
      match timeout w with
      | Some Pending =>
          abort (mkWorld (Some Fired) (controller_aborted w) (user_aborted w)
                   (user_listener w) (fetch_calls w) (json_calls w))
      | _ => w
      end
  | UserAborts =>
      if hasUserSignal && negb (user_aborted w) then
        let w := mkWorld (timeout w) (controller_aborted w) true
                   (user_listener w) (fetch_calls w) (json_calls w) in
        if user_listener w then abort w else w
      else w
  end.

Record ErrorResponse := mkErrorResponse {
  code : Z;
  body : string;
  error_headers : gmap string string;
  activityId : option string;
  substatus : option Number;
  retryAfterInMilliseconds : option Number
}.

(** The success envelope [{ headers, result, statusCode }]. *)
Record Response := mkResponse {
  response_headers : gmap string string;
  result : Json;
  statusCode : Z
}.

(** Modelled from the spec: [./TimeoutError] is not part of the sources at
    hand; [new TimeoutError()] is an error kind of its own, the dedicated
    one raised for the internal deadline.  With it, what an attempt can be
    rejected with: an error passed on as it is, a [TimeoutError], or an
    error envelope. *)
Inductive Thrown :=
| OfError (error : Error)
| TimeoutError
| OfErrorResponse (errorResponse : ErrorResponse).

Inductive Settled :=
| Resolved (response : Response)
| Rejected (thrown : Thrown).

Section Request.

Context (consts : Constants.t).

Local Abbreviation HttpHeaders := (Constants.HttpHeaders consts).

(** Lines 233-236: the response headers copied into a plain object. *)
Definition materialize (entries : list (string * string)) : gmap string string :=
  foldl (λ headers kv, <[fst kv := snd kv]> headers) ∅ entries.

(** Lines 239-256. *)
Definition errorResponseOf (status : Z) (result : Json)
    (headers : gmap string string) : ErrorResponse :=
  mkErrorResponse status (JSON_stringify result) headers
    (headers !! HttpHeaders ActivityId)
    (parseInt10 <$> (headers !! HttpHeaders SubStatus))
    (parseInt10 <$> (headers !! HttpHeaders RetryAfterInMilliseconds)).

(** Lines 229-264: what follows a response. *)
Definition classify (response : Fetch.Response) (w : World) : Settled * World :=
  let w := clearTimeout w in
  let status := Fetch.status response in
  let parsed : (Error + Json) * World :=
    if (status =? 204)%Z || (status =? 304)%Z then (inr JNull, w)
    else (Fetch.json response, recordJson w) in
  match parsed with
  | (inl thrown, w) => (Rejected (OfError thrown), w)
  | (inr result, w) =>
      let headers := materialize (Fetch.entries response) in
      if (400 <=? status)%Z
      then (Rejected (OfErrorResponse (errorResponseOf status result headers)), w)
      else (Resolved (mkResponse headers result status), w)
  end.

Definition request (connectionPolicy : ConnectionPolicy)
    (requestOptions : NodeRequestOptions) (body : option string)
    (userSignal : option AbortSignal) (x : Exchange) : Settled * World :=
  let w := mkWorld None false
             (match userSignal with Some s => aborted s | None => false end)
             false [] 0%nat in
  let w := setTimeout (requestTimeout connectionPolicy) w in
  let w :=
    match userSignal with
    | Some s => if aborted s then abort w else addEventListener w
    | None => w
    end in
  let w :=
    recordFetch
      (Fetch.mkInit (href requestOptions ++ path requestOptions)
         (method requestOptions) (headers requestOptions)
         (agent requestOptions) (controller_aborted w)
         (if truthy body then body else None)) w in
  let w := foldl (deliver (isSet userSignal)) w (whileFetching x) in
  match settles x with
  | inl error =>
      if String.eqb (name error) "AbortError" then
        if isSet userSignal && user_aborted w
        then (Rejected (OfError error), clearTimeout w)
        else (Rejected TimeoutError, w)
      else (Rejected (OfError error), w)
  | inr response => classify response w
  end.

End Request.

(** Whether the caller's signal is aborted once the events [evs] have been
    delivered: it was aborted from the start, or the caller aborted it
    meanwhile. *)
Definition userAborted (userSignal : option AbortSignal) (evs : list Event) : bool :=
  match userSignal with
  | Some s => aborted s || bool_decide (UserAborts ∈ evs)
  | None => false
  end.

(** A transport honours the signal it is given when a call made with an
    already aborted signal is rejected with an [AbortError]. *)
Definition honoursAbort (init : Fetch.Init) (x : Exchange) : Prop :=
  Fetch.init_signal_aborted init = true →
  ∃ e, settles x = inl e ∧ name e = "AbortError".

(* ===================================================================== *)
(** ** [Container]: cached sub-resource accessors *)
(* ===================================================================== *)

Module Resources.

Inductive Class :=
| Items | StoredProcedures | Triggers | UserDefinedFunctions | Conflicts
| Item | UserDefinedFunction | Conflict | StoredProcedure | Trigger.

Global Instance class_eq_dec : EqDecision Class.
Proof. solve_decision. Defined.

(** An object built by one of the [new] expressions of the class: which
    constructor ran and the arguments it was given. *)
Record Object := mkObject {
  class : Class;
  container : loc;
  objectId : option string;
  objectPartitionKey : option string;
  objectClientContext : loc
}.

(** The fields of a [Container]; [None] is a field not yet assigned. *)
Record Container := mkContainer {
  database : loc;
  id : string;
  clientContext : loc;
  _items : option loc;
  _sprocs : option loc;
  _triggers : option loc;
  _udfs : option loc;
  _conflicts : option loc
}.

Global Instance container_inhabited : Inhabited Container :=
  populate (mkContainer 0%nat "" 0%nat None None None None None).

(** Containers by reference, and every object constructed so far, in
    construction order: an object's reference is its position. *)
Record Store := mkStore {
  containers : gmap loc Container;
  objects : list Object
}.

(** [new C(...)] *)
Definition new (o : Object) (σ : Store) : loc * Store :=
  (length (objects σ), mkStore (containers σ) (objects σ ++ [o])).

Definition this_ (this : loc) (σ : Store) : Container := containers σ !!! this.

Definition update (this : loc) (f : Container → Container) (σ : Store) : Store :=
  mkStore (<[this := f (this_ this σ)]> (containers σ)) (objects σ).

(** [new Container(database, id, clientContext)] *)
Definition newContainer (database : loc) (id : string) (clientContext : loc)
    (σ : Store) : loc * Store :=
  let this := fresh (dom (containers σ)) in
  (this,
   mkStore (<[this := mkContainer database id clientContext
                        None None None None None]> (containers σ))
           (objects σ)).

(** [get items()] *)
Definition items (this : loc) (σ : Store) : option loc * Store :=
  let σ :=
    if negb (isSet (_items (this_ this σ))) then
      let '(o, σ) :=
        new (mkObject Items this None None (clientContext (this_ this σ))) σ in
      update this (λ c, mkContainer (database c) (id c) (clientContext c)
                          (Some o) (_sprocs c) (_triggers c) (_udfs c)
                          (_conflicts c)) σ
    else σ in
  (_items (this_ this σ), σ).

(** [get storedProcedures()] *)
Definition storedProcedures (this : loc) (σ : Store) : option loc * Store :=
  let σ :=
    if negb (isSet (_sprocs (this_ this σ))) then
      let '(o, σ) :=
        new (mkObject StoredProcedures this None None
               (clientContext (this_ this σ))) σ in
      update this (λ c, mkContainer (database c) (id c) (clientContext c)
                          (_items c) (Some o) (_triggers c) (_udfs c)
                          (_conflicts c)) σ
    else σ in
  (_sprocs (this_ this σ), σ).

(** [get __triggers()] *)
Definition __triggers (this : loc) (σ : Store) : option loc * Store :=
  let σ :=
    if negb (isSet (_triggers (this_ this σ))) then
      let '(o, σ) :=
        new (mkObject Triggers this None None (clientContext (this_ this σ))) σ in
      update this (λ c, mkContainer (database c) (id c) (clientContext c)
                          (_items c) (_sprocs c) (Some o) (_udfs c)
                          (_conflicts c)) σ
    else σ in
  (_triggers (this_ this σ), σ).

(** [get __userDefinedFunctions()] *)
Definition __userDefinedFunctions (this : loc) (σ : Store) : option loc * Store :=
  let σ :=
    if negb (isSet (_udfs (this_ this σ))) then
      let '(o, σ) :=
        new (mkObject UserDefinedFunctions this None None
               (clientContext (this_ this σ))) σ in
      update this (λ c, mkContainer (database c) (id c) (clientContext c)
                          (_items c) (_sprocs c) (_triggers c) (Some o)
                          (_conflicts c)) σ
    else σ in
  (_udfs (this_ this σ), σ).

(** [get conflicts()] *)
Definition conflicts (this : loc) (σ : Store) : option loc * Store :=
  let σ :=
    if negb (isSet (_conflicts (this_ this σ))) then
      let '(o, σ) :=
        new (mkObject Conflicts this None None (clientContext (this_ this σ))) σ in
      update this (λ c, mkContainer (database c) (id c) (clientContext c)
                          (_items c) (_sprocs c) (_triggers c) (_udfs c)
                          (Some o)) σ
    else σ in
  (_conflicts (this_ this σ), σ).

(** [item(id, partitionKey)] *)
Definition item (this : loc) (id : string) (partitionKey : option string)
    (σ : Store) : loc * Store :=
  new (mkObject Item this (Some id) partitionKey (clientContext (this_ this σ))) σ.

(** [__userDefinedFunction(id)] *)
Definition __userDefinedFunction (this : loc) (id : string) (σ : Store)
    : loc * Store :=
  new (mkObject UserDefinedFunction this (Some id) None
         (clientContext (this_ this σ))) σ.

(** [conflict(id)] *)
Definition conflict (this : loc) (id : string) (σ : Store) : loc * Store :=
  new (mkObject Conflict this (Some id) None (clientContext (this_ this σ))) σ.

(** [storedProcedure(id)] *)
Definition storedProcedure (this : loc) (id : string) (σ : Store) : loc * Store :=
  new (mkObject StoredProcedure this (Some id) None
         (clientContext (this_ this σ))) σ.

(** [__trigger(id)] *)
Definition __trigger (this : loc) (id : string) (σ : Store) : loc * Store :=
  new (mkObject Trigger this (Some id) None (clientContext (this_ this σ))) σ.

(** A use of a container by its callers: a property read or a method
    call that touches the object graph. *)
Inductive Call :=
| GetItems (this : loc)
| GetStoredProcedures (this : loc)
| GetTriggers (this : loc)
| GetUserDefinedFunctions (this : loc)
| GetConflicts (this : loc)
| CallItem (this : loc) (id : string) (partitionKey : option string)
| CallUserDefinedFunction (this : loc) (id : string)
| CallConflict (this : loc) (id : string)
| CallStoredProcedure (this : loc) (id : string)
| CallTrigger (this : loc) (id : string).

(** The value a call evaluates to and the store it leaves. *)
Definition perform (c : Call) (σ : Store) : option loc * Store :=
  match c with
  | GetItems this => items this σ
  | GetStoredProcedures this => storedProcedures this σ
  | GetTriggers this => __triggers this σ
  | GetUserDefinedFunctions this => __userDefinedFunctions this σ
  | GetConflicts this => conflicts this σ
  | CallItem this id pk => prod_map Some (λ σ, σ) (item this id pk σ)
  | CallUserDefinedFunction this id =>
      prod_map Some (λ σ, σ) (__userDefinedFunction this id σ)
  | CallConflict this id => prod_map Some (λ σ, σ) (conflict this id σ)
  | CallStoredProcedure this id =>
      prod_map Some (λ σ, σ) (storedProcedure this id σ)
  | CallTrigger this id => prod_map Some (λ σ, σ) (__trigger this id σ)
  end.

(** A sequence of calls, one after the other. *)
Definition performAll (cs : list Call) (σ : Store) : Store :=
  foldl (λ σ c, snd (perform c σ)) σ cs.

(** How many objects of class [k] have been constructed for container
    [this]. *)
Definition constructions (k : Class) (this : loc) (σ : Store) : nat :=
  length (filter (λ o, class o = k ∧ container o = this) (objects σ)).

(** The cache field behind each accessor. *)
Definition cacheOf (k : Class) (c : Container) : option loc :=
  match k with
  | Items => _items c
  | StoredProcedures => _sprocs c
  | Triggers => _triggers c
  | UserDefinedFunctions => _udfs c
  | Conflicts => _conflicts c
  | _ => None
  end.

Definition setCache (k : Class) (o : loc) (c : Container) : Container :=
  match k with
  | Items =>
      mkContainer (database c) (id c) (clientContext c) (Some o) (_sprocs c)
        (_triggers c) (_udfs c) (_conflicts c)
  | StoredProcedures =>
      mkContainer (database c) (id c) (clientContext c) (_items c) (Some o)
        (_triggers c) (_udfs c) (_conflicts c)
  | Triggers =>
      mkContainer (database c) (id c) (clientContext c) (_items c) (_sprocs c)
        (Some o) (_udfs c) (_conflicts c)
  | UserDefinedFunctions =>
      mkContainer (database c) (id c) (clientContext c) (_items c) (_sprocs c)
        (_triggers c) (Some o) (_conflicts c)
  | Conflicts =>
      mkContainer (database c) (id c) (clientContext c) (_items c) (_sprocs c)
        (_triggers c) (_udfs c) (Some o)
  | _ => c
  end.

(** The classes that sit behind a cache field. *)
Definition cached (k : Class) : Prop :=
  k ∈ [Items; StoredProcedures; Triggers; UserDefinedFunctions; Conflicts].

(** The shape the five accessors share; each of them is an instance of
    it, by computation. *)
Definition lazily (k : Class) (this : loc) (σ : Store) : option loc * Store :=
  let σ :=
    if negb (isSet (cacheOf k (this_ this σ))) then
      let '(o, σ) :=
        new (mkObject k this None None (clientContext (this_ this σ))) σ in
      update this (setCache k o) σ
    else σ in
  (cacheOf k (this_ this σ), σ).

(** Constructions already made, plus the one still to come while the
    cache field is empty. *)
Definition budget (k : Class) (this : loc) (σ : Store) : nat :=
  (constructions k this σ
   + if isSet (cacheOf k (this_ this σ)) then 0 else 1)%nat.

End Resources.

(* ===================================================================== *)
(** ** A table and a signer to run the model on *)
(* ===================================================================== *)

Module Sample.

(** Modelled from the spec: the constants table of [../common] is not
    part of the sources at hand.  The spec fixes a known vocabulary of
    header names and a JSON media type as the default content type; the
    names below are the wire names of the service. *)
Definition HttpHeaders (n : HttpHeaderName) : string :=
  match n with
  | Authorization => "authorization"
  | ContentType => "Content-Type"
  | Accept => "Accept"
  | Continuation => "x-ms-continuation"
  | PageSize => "x-ms-max-item-count"
  | ActivityId => "x-ms-activity-id"
  | PreTriggerInclude => "x-ms-documentdb-pre-trigger-include"
  | PostTriggerInclude => "x-ms-documentdb-post-trigger-include"
  | OfferType => "x-ms-offer-type"
  | OfferThroughput => "x-ms-offer-throughput"
  | IfMatch => "If-Match"
  | IfNoneMatch => "If-None-Match"
  | A_IM => "A-IM"
  | IndexingDirective => "x-ms-indexing-directive"
  | ConsistencyLevel => "x-ms-consistency-level"
  | ResourceTokenExpiry => "x-ms-documentdb-expiry-seconds"
  | SessionToken => "x-ms-session-token"
  | EnableScanInQuery => "x-ms-documentdb-query-enable-scan"
  | EnableCrossPartitionQuery => "x-ms-documentdb-query-enablecrosspartition"
  | PopulateQuotaInfo => "x-ms-documentdb-populatequotainfo"
  | PopulateQueryMetrics => "x-ms-documentdb-populatequerymetrics"
  | ParallelizeCrossPartitionQuery =>
      "x-ms-documentdb-query-parallelizecrosspartitionquery"
  | PartitionKey => "x-ms-documentdb-partitionkey"
  | XDate => "x-ms-date"
  | PartitionKeyRangeID => "x-ms-documentdb-partitionkeyrangeid"
  | EnableScriptLogging => "x-ms-documentdb-script-enable-logging"
  | OfferIsRUPerMinuteThroughputEnabled =>
      "x-ms-offer-is-ru-per-minute-throughput-enabled"
  | DisableRUPerMinuteUsage => "x-ms-documentdb-disable-ru-per-minute-usage"
  | ALLOW_MULTIPLE_WRITES => "x-ms-cosmos-allow-tentative-writes"
  | SubStatus => "x-ms-substatus"
  | RetryAfterInMilliseconds => "x-ms-retry-after-ms"
  end.

Definition constants : Constants.t := Constants.mk HttpHeaders "application/json".

(** Modelled from the spec: [jsonStringifyAndEscapeNonASCII] of
    [../common] is not part of the sources at hand.  It yields the JSON
    text of its argument with the non-ASCII characters escaped; on ASCII
    data that is the JSON text itself. *)
Definition jsonStringifyAndEscapeNonASCII (x : Json) : string := JSON_stringify x.

(** Modelled from the spec: [setAuthorizationHeader] of [../auth] is not
    part of the sources at hand.  From the configured credential it
    (master key, resource-scoped key, per-resource tokens or token
    provider) it computes or obtains an authorization token and inserts
    it as one additional header; it fails with an [AuthError] when no
    usable credential is configured, and when the token provider fails.
    The token text stands for the signature the credential yields. *)
Definition setAuthorizationHeader (authOptions : AuthOptions)
    (verb : HTTPMethod.t) (path resourceId : string)
    (resourceType : ResourceType) (headers : gmap string HeaderValue)
    : Error + gmap string HeaderValue :=
  let insert_token (t : string) :=
  <[HttpHeaders Authorization := HStr t]> headers in
if truthy (masterKey authOptions) then
  inr (insert_token ("type=master&sig=" ++ default "" (masterKey authOptions)))
else if truthy (key authOptions) then
  inr (insert_token ("type=master&sig=" ++ default "" (key authOptions)))
else
  match resourceTokens authOptions, tokenProvider authOptions with
  | Some ts, _ => inr (insert_token (default "" (snd <$> head ts)))
  | None, Some provider =>
      match provider verb path resourceId resourceType with
      | inr t => inr (insert_token t)
      | inl thrown => inl thrown
      end
  | None, None => inl (mkError "AuthError" "no usable credential")
  end.

Definition collaborators : Collaborators :=
  mkCollaborators constants jsonStringifyAndEscapeNonASCII setAuthorizationHeader.

(** Inputs to run the model on. *)

Definition now : string := "Tue, 03 Nov 2026 10:00:00 GMT".

Definition noAuth : AuthOptions := mkAuthOptions None None None None None.

Definition masterKeyAuth : AuthOptions :=
  mkAuthOptions (Some "bWFzdGVyLWtleQ==") None None None None.

Definition resourceTokenAuth : AuthOptions :=
  mkAuthOptions None None
    (Some [("dbs/db/colls/c", "type=resource&ver=1&sig=dG9rZW4=")]) None None.

(** [{ partitionKey: "abc", consistencyLevel: "Session" }] *)
Definition keyedOptions : Options :=
  mkOptions None None None None None None None None None (Some "Session")
            None None None None None None None (Some (JStr "abc")) None
            None None.

(** A heap with the caller's default headers at reference 0 and the
    caller's option bag at reference 0. *)
Definition callerHeap (defaults : gmap string HeaderValue) (opts : Options)
    : Heap :=
  mkHeap {[ 0%nat := defaults ]} {[ 0%nat := opts ]}.

Definition policy : ConnectionPolicy := mkConnectionPolicy 60000.

Definition requestOptions : NodeRequestOptions :=
  mkNodeRequestOptions "https://account.documents.azure.com:443" "/dbs/db/colls/c"
    HTTPMethod.get ∅ None.

Definition abortError : Error := mkError "AbortError" "The user aborted a request.".

Definition connectionRefused : Error :=
  mkError "FetchError" "connect ECONNREFUSED 127.0.0.1:8081".

Definition syntaxError : Error :=
  mkError "SyntaxError" "Unexpected end of JSON input".

Definition notFoundBody : Json :=
  JObj [("code", JStr "NotFound"); ("message", JStr "Resource Not Found")].

(** A 404 whose body parses. *)
Definition notFound : Fetch.Response :=
  Fetch.mkResponse 404
    [("x-ms-activity-id", "0f3c"); ("x-ms-substatus", "1002")]
    (inr notFoundBody).

(** A 404 whose body is not JSON. *)
Definition notFoundUnparsable : Fetch.Response :=
  Fetch.mkResponse 404 [("x-ms-activity-id", "0f3c")] (inl syntaxError).

(** A 204: no body to parse. *)
Definition noContent : Fetch.Response :=
  Fetch.mkResponse 204 [("x-ms-activity-id", "0f3d")] (inl syntaxError).

(** [getHeaders] called for a document of collection [c], with the
    caller's default headers and option bag as given. *)
Definition headersFor (authOptions : AuthOptions) (verb : HTTPMethod.t)
    (defaults : gmap string HeaderValue) (opts : Options)
    : (Error + loc) * Heap :=
  getHeaders collaborators authOptions 0%nat verb "/dbs/db/colls/c"
    "dbs/db/colls/c" "docs" (Some 0%nat) None None now
    (callerHeap defaults opts).

(** One attempt, without a body. *)
Definition attempt (userSignal : option AbortSignal) (x : Exchange)
    : Settled * World :=
  request constants policy requestOptions None userSignal x.

(** Default headers that carry a consistency level of their own. *)
Definition strongDefaults : gmap string HeaderValue :=
  {[ HttpHeaders ConsistencyLevel := HStr "Strong" ]}.


(** The error envelope of [notFound]. *)
Definition notFoundEnvelope : ErrorResponse :=
  mkErrorResponse 404 (JSON_stringify notFoundBody)
    {[ "x-ms-activity-id" := "0f3c"; "x-ms-substatus" := "1002" ]}
    (Some "0f3c") (Some (Num 1002)) None.

End Sample.

(* ===================================================================== *)
(** ** Further observations on [getHeaders] *)
(* ===================================================================== *)

(** A step that removes no header of an object. *)
Definition keepsHeader (obj : loc) (k : string) (step : Heap → Heap) : Prop :=
  ∀ σ, is_Some (readHeader obj k σ) → is_Some (readHeader obj k (step σ)).

(** Option bags in which every field tested for truthiness is falsy
    ([undefined], [""], [0] or [false]) and the fields tested for presence
    are absent. *)
Definition falsyOptions (opts : Options) : bool :=
  negb (truthy (continuation opts))
  && negb (truthy (preTriggerInclude opts))
  && negb (truthy (postTriggerInclude opts))
  && negb (truthy (offerType opts))
  && negb (truthy (offerThroughput opts))
  && negb (truthy (maxItemCount opts))
  && negb (isSet (accessCondition opts))
  && negb (truthy (useIncrementalFeed opts))
  && negb (truthy (indexingDirective opts))
  && negb (truthy (consistencyLevel opts))
  && negb (truthy (resourceTokenExpirySeconds opts))
  && negb (truthy (sessionToken opts))
  && negb (truthy (enableScanInQuery opts))
  && negb (truthy (enableCrossPartitionQuery opts))
  && negb (truthy (populateQuotaInfo opts))
  && negb (truthy (populateQueryMetrics opts))
  && negb (isSet (maxDegreeOfParallelism opts))
  && negb (isSet (partitionKey opts))
  && negb (truthy (enableScriptLogging opts))
  && negb (truthy (offerEnableRUPerMinuteThroughput opts))
  && negb (truthy (disableRUPerMinuteUsage opts)).

(* ===================================================================== *)
(** ** Request bodies: [javaScriptFriendlyJSONStringify], [bodyFromData] *)
(* ===================================================================== *)

Module Body.

(** Text is held as its UTF-8 bytes.  The line separator U+2028 is the
    three bytes E2 80 A8, the paragraph separator U+2029 the three bytes
    E2 80 A9, and in well-formed UTF-8 these byte triples occur nowhere
    else. *)
Definition xE2 : ascii := "226"%char.
Definition x80 : ascii := "128"%char.
Definition xA8 : ascii := "168"%char.
Definition xA9 : ascii := "169"%char.

(** Whether the text [String x s1] starts with the three bytes [a b c]. *)
Definition matchesAt (a b c : ascii) (x : ascii) (s1 : string) : bool :=
  match s1 with
  | String y (String z _) => Ascii.eqb x a && Ascii.eqb y b && Ascii.eqb z c
  | _ => false
  end.

(** [s.replace(/abc/g, by)] for a pattern of three bytes: occurrences are
    replaced from left to right, and the search resumes after each. *)
Fixpoint replaceAll3 (a b c : ascii) (by_ : string) (s : string) : string :=
  match s with
  | String x s1 =>
      match s1 with
      | String y (String z rest) =>
          if Ascii.eqb x a && Ascii.eqb y b && Ascii.eqb z c
          then by_ ++ replaceAll3 a b c by_ rest
          else String x (replaceAll3 a b c by_ s1)
      | _ => String x (replaceAll3 a b c by_ s1)
      end
  | EmptyString => EmptyString
  end.

(** Whether the three bytes [a b c] occur somewhere in [s]. *)
Fixpoint occurs3 (a b c : ascii) (s : string) : bool :=
  match s with
  | String x s1 => matchesAt a b c x s1 || occurs3 a b c s1
  | EmptyString => false
  end.

(** The six characters of the escape for U+2028 and for U+2029. *)
Definition escape2028 : string := String backslash "u2028".
Definition escape2029 : string := String backslash "u2029".

Definition javaScriptFriendlyJSONStringify (s : Json) : string :=
  replaceAll3 xE2 x80 xA9 escape2029
    (replaceAll3 xE2 x80 xA8 escape2028 (JSON_stringify s)).

(** What a caller hands over as a body: a JavaScript value or a [Buffer]
    of bytes. *)
Inductive Data :=
| Value (v : Json)
| Buffer (bytes : list Z).

(** [typeof data] *)
Definition typeof (data : Data) : string :=
  match data with
  | Value (JBool _) => "boolean"
  | Value (JNum _) => "number"
  | Value (JStr _) => "string"
  | Value JNull | Value (JArr _) | Value (JObj _) | Buffer _ => "object"
  end.

(** What [JSON.stringify] serialises for a value: the value itself, and
    for a [Buffer] what its [toJSON] method returns. *)
Definition toJSON (data : Data) : Json :=
  match data with
  | Value v => v
  | Buffer bytes => JObj [("type", JStr "Buffer"); ("data", JArr (JNum <$> bytes))]
  end.

Global Instance json_truthy : Truthy Json :=
  λ v, match v with
       | JNull => false
       | JBool b => b
       | JNum n => truthy n
       | JStr s => truthy s
       | JArr _ | JObj _ => true
       end.

Global Instance data_truthy : Truthy Data :=
  λ data, match data with
          | Value v => truthy v
          | Buffer _ => true
          end.

Definition bodyFromData (data : Data) : Data :=
  if String.eqb (typeof data) "object"
  then Value (JStr (javaScriptFriendlyJSONStringify (toJSON data)))
  else data.

End Body.

(* ===================================================================== *)
(** ** [RequestHandler] *)
(* ===================================================================== *)

Module Handler.
Import Body.

(** The [request] argument: the code takes its [path] field, and the
    argument itself when it has none, as a plain path string is. *)
Inductive RequestContext :=
| PathString (p : string)
| Context (path : option string).

(** What [requestOptions.path += path] appends: a string as it is, an
    object by its conversion to a string. *)
Definition pathText (request : RequestContext) : string :=
  match request with
  | PathString p => p
  | Context (Some p) => p
  | Context None => "[object Object]"
  end.

(** What [url.parse] yields, as far as it is used: [href], and [path],
    which is [null] ([None]) for a URL without one. *)
Record Url := mkUrl { url_href : string; url_path : option string }.

(** The request options once [RequestHandler.request] has filled them
    in. *)
Record RequestOptions := mkRequestOptions {
  node : NodeRequestOptions;
  secureProtocol : option string;
  rejectUnauthorized : option bool
}.

(** The connection policy with the field [RequestHandler] reads. *)
Record Policy := mkPolicy {
  connectionPolicy : ConnectionPolicy;
  disableSSLVerification : option bool
}.

(** The body [RequestHandler.request] passes on for the data it is given:
    none for falsy data, what [bodyFromData] makes of it otherwise. *)
Definition bodyFor (data : option Data) : option Data :=
  match data with
  | Some d => if truthy d then Some (bodyFromData d) else None
  | None => None
  end.

Section WithCollaborators.

(** [RetryUtility.execute] of [../retry/retryUtility] and [url.parse] are
    not part of the sources at hand: both are parameters, as is the type
    of the endpoint manager that is passed through. *)
Context {Manager Outcome : Type}.

Record ExecuteArgs := mkExecuteArgs {
  arg_globalEndpointManager : Manager;
  arg_body : option Data;
  arg_connectionPolicy : Policy;
  arg_requestOptions : RequestOptions;
  arg_request : RequestContext;
  arg_abortSignal : option AbortSignal
}.

Context (execute : ExecuteArgs → Outcome) (parse : string → Url).

(** What [RequestHandler.request] returns: the result that reports
    unusable data (lines 51-56), or what [RetryUtility.execute]
    returns. *)
Inductive Returned :=
| InvalidData (message : string)
| Executed (outcome : Outcome).

Definition request (globalEndpointManager : Manager) (policy : Policy)
    (requestAgent : option string) (method : HTTPMethod.t) (hostname : string)
    (request : RequestContext) (data : option Data)
    (headers : gmap string HeaderValue) (abortSignal : option AbortSignal)
    : Returned :=
  let path := pathText request in
  let body : Returned + option Data :=
    match data with
    | Some d =>
        if truthy d then
          let body := bodyFromData d in
          if negb (truthy body)
          then inl (InvalidData
                      "parameter data must be a javascript object, string, or Buffer")
          else inr (Some body)
        else inr None
    | None => inr None
    end in
  match body with
  | inl early => early
  | inr body =>
      let parsed := parse hostname in
      let requestOptions :=
        mkRequestOptions
          (mkNodeRequestOptions (url_href parsed)
             (default "null" (url_path parsed) ++ path) method headers
             requestAgent)
          (Some "TLSv1_client_method")
          (if bool_decide (disableSSLVerification policy = Some true)
           then Some false else None) in
      Executed (execute (mkExecuteArgs globalEndpointManager body policy
                           requestOptions request abortSignal))
  end.

(** An instance: the three constructor arguments. *)
Record RequestHandler := mkRequestHandler {
  globalEndpointManager : Manager;
  handlerPolicy : Policy;
  requestAgent : option string
}.

Definition get (this : RequestHandler) (urlString : string)
    (context : RequestContext) (headers : gmap string HeaderValue)
    (abortSignal : option AbortSignal) : Returned :=
  request (globalEndpointManager this) (handlerPolicy this) (requestAgent this)
    HTTPMethod.get urlString context None headers abortSignal.

Definition post (this : RequestHandler) (urlString : string)
    (context : RequestContext) (body : option Data)
    (headers : gmap string HeaderValue) (abortSignal : option AbortSignal)
    : Returned :=
  request (globalEndpointManager this) (handlerPolicy this) (requestAgent this)
    HTTPMethod.post urlString context body headers abortSignal.

Definition put (this : RequestHandler) (urlString : string)
    (context : RequestContext) (body : option Data)
    (headers : gmap string HeaderValue) (abortSignal : option AbortSignal)
    : Returned :=
  request (globalEndpointManager this) (handlerPolicy this) (requestAgent this)
    HTTPMethod.put urlString context body headers abortSignal.

Definition delete (this : RequestHandler) (urlString : string)
    (context : RequestContext) (headers : gmap string HeaderValue)
    (abortSignal : option AbortSignal) : Returned :=
  request (globalEndpointManager this) (handlerPolicy this) (requestAgent this)
    HTTPMethod.delete urlString context None headers abortSignal.

End WithCollaborators.

End Handler.

(* ===================================================================== *)
(** ** [Container]: [read] and [getPartitionKeyDefinition] *)
(* ===================================================================== *)

Module ContainerRequests.

(** The read-only fields a container's requests use: [database.id] and
    [id]. *)
Record Handle := mkHandle { databaseId : string; containerId : string }.

(** What [clientContext.read] resolves with. *)
Record ReadResponse := mkReadResponse {
  read_result : Json;
  read_headers : gmap string string;
  read_statusCode : Z
}.

(** [new ContainerResponse(result, headers, statusCode, this)] *)
Record ContainerResponse := mkContainerResponse {
  container_result : Json;
  container_headers : gmap string string;
  container_statusCode : Z;
  container_ : Handle
}.

(** [new ResourceResponse(definition, headers, statusCode)]; the
    definition is [undefined] ([None]) when the cache holds none. *)
Record ResourceResponse := mkResourceResponse {
  definition : option Json;
  resource_headers : gmap string string;
  resource_statusCode : Z
}.

(** The client context as a container sees it: the cache of partition key
    definitions by container URL, where a URL may be present with the
    value [undefined], and the reads sent so far, by path and id. *)
Record ClientContext := mkClientContext {
  partitionKeyDefinitionCache : gmap string (option Json);
  reads : list (string * string)
}.

(** [result.partitionKey]: reading a property off [null] throws, off an
    object it yields the field (the last of that name) or [undefined],
    off anything else [undefined]. *)
Definition partitionKeyOf (result : Json) : Error + option Json :=
  match result with
  | JNull => inl (mkError "TypeError" "Cannot read property 'partitionKey' of null")
  | JObj fields =>
      inr (snd <$> last (filter (λ kv, fst kv = "partitionKey") fields))
  | _ => inr None
  end.

Section WithCollaborators.

(** The link helpers of [../../common] and [clientContext.read] are not
    part of the sources at hand: the helpers are parameters, and so is
    what the service answers to the n-th read. *)
Context (createDocumentCollectionUri : string → string → string)
  (getPathFromLink getIdFromLink : string → string)
  (answer : nat → Error + ReadResponse).

(** [get url()] *)
Definition url (this : Handle) : string :=
  createDocumentCollectionUri (databaseId this) (containerId this).

(** [this.clientContext.read(path, ResourceType.container, id, undefined,
    options)] *)
Definition clientRead (path id : string) (ctx : ClientContext)
    : (Error + ReadResponse) * ClientContext :=
  (answer (length (reads ctx)),
   mkClientContext (partitionKeyDefinitionCache ctx) (reads ctx ++ [(path, id)])).

Definition read (this : Handle) (ctx : ClientContext)
    : (Error + ContainerResponse) * ClientContext :=
  let path := getPathFromLink (url this) in
  let id := getIdFromLink (url this) in
  let '(response, ctx) := clientRead path id ctx in
  match response with
  | inl thrown => (inl thrown, ctx)
  | inr response =>
      match partitionKeyOf (read_result response) with
      | inl thrown => (inl thrown, ctx)
      | inr partitionKey =>
          (inr (mkContainerResponse (read_result response)
                  (read_headers response) (read_statusCode response) this),
           mkClientContext
             (<[url this := partitionKey]> (partitionKeyDefinitionCache ctx))
             (reads ctx))
      end
  end.

(** [cache[url]] *)
Definition cachedDefinition (this : Handle) (ctx : ClientContext) : option Json :=
  default None (partitionKeyDefinitionCache ctx !! url this).

Definition getPartitionKeyDefinition (this : Handle) (ctx : ClientContext)
    : (Error + ResourceResponse) * ClientContext :=
  if isSet (partitionKeyDefinitionCache ctx !! url this) then
    (inr (mkResourceResponse (cachedDefinition this ctx) ∅ 0), ctx)
  else
    let '(response, ctx) := read this ctx in
    match response with
    | inl thrown => (inl thrown, ctx)
    | inr response =>
        (inr (mkResourceResponse (cachedDefinition this ctx)
                (container_headers response) (container_statusCode response)),
         ctx)
    end.

End WithCollaborators.

End ContainerRequests.

(* ===================================================================== *)
(** ** [Container]: the methods that construct anew *)
(* ===================================================================== *)

(** The calls of [item], [conflict], [storedProcedure], [__trigger] and
    [__userDefinedFunction]. *)
Definition isFactory (c : Resources.Call) : bool :=
  match c with
  | Resources.CallItem _ _ _ | Resources.CallUserDefinedFunction _ _
  | Resources.CallConflict _ _ | Resources.CallStoredProcedure _ _
  | Resources.CallTrigger _ _ => true
  | _ => false
  end.

(* ===================================================================== *)
(** ** Further inputs to run the model on *)
(* ===================================================================== *)

Module Cases.

(** [{ accessCondition: { type: "IfMatch", condition: "etag-1" },
       preTriggerInclude: ["validate", "stamp"], postTriggerInclude: [],
       maxDegreeOfParallelism: 0, partitionKey: null }] *)
Definition conditional : Options :=
  mkOptions None (Some (Many ["validate"; "stamp"])) (Some (Many [])) None None
            None (Some (mkAccessCondition "IfMatch" "etag-1")) None None None
            None None None None None None (Some 0) (Some JNull) None None None.

(** [{ continuation: "", offerThroughput: 0, maxItemCount: 0,
       useIncrementalFeed: false, sessionToken: "", enableScanInQuery: false,
       populateQuotaInfo: false }] *)
Definition falsy : Options :=
  mkOptions (Some "") None None None (Some 0) (Some 0) None (Some false) None
            None None (Some "") (Some false) None (Some false) None None None
            None None None.

(** Default headers with a header outside the table and one inside it. *)
Definition defaults : gmap string HeaderValue :=
  {[ "x-custom-tag" := HStr "blue";
     Sample.HttpHeaders SessionToken := HStr "0:12" ]}.

(** [getHeaders] for a document of collection [c], signed with the master
    key, with a partition key range id. *)
Definition headersFor (verb : HTTPMethod.t)
    (defaults : gmap string HeaderValue) (opts : Options)
    (partitionKeyRangeId : option string) : (Error + loc) * Heap :=
  getHeaders Sample.collaborators Sample.masterKeyAuth 0%nat verb
    "/dbs/db/colls/c" "dbs/db/colls/c" "docs" (Some 0%nat)
    partitionKeyRangeId None Sample.now (Sample.callerHeap defaults opts).

(** Stand-ins for the link helpers, which are not part of the sources at
    hand: the name-based link of a container, its path and its id. *)
Definition createDocumentCollectionUri (databaseId containerId : string) : string :=
  "dbs/" ++ databaseId ++ "/colls/" ++ containerId.

Definition getPathFromLink (link : string) : string := "/" ++ link.

Definition getIdFromLink (link : string) : string := link.

(** The definition of a container partitioned by [/region]. *)
Definition containerDefinition : Json :=
  JObj [("id", JStr "orders");
        ("partitionKey",
         JObj [("paths", JArr [JStr "/region"]); ("kind", JStr "Hash")])].

(** A service that answers the first read with the definition and is
    unavailable from then on. *)
Definition answersOnce (n : nat) : Error + ContainerRequests.ReadResponse :=
  match n with
  | O => inr (ContainerRequests.mkReadResponse containerDefinition
                {[ "etag" := "7" ]} 200)
  | S _ => inl (mkError "ServiceUnavailable" "503")
  end.

(** A service that answers every read with an empty body. *)
Definition answersNull (n : nat) : Error + ContainerRequests.ReadResponse :=
  inr (ContainerRequests.mkReadResponse JNull ∅ 304).

Definition orders : ContainerRequests.Handle :=
  ContainerRequests.mkHandle "shop" "orders".

(** A client context that has seen nothing yet. *)
Definition freshContext : ContainerRequests.ClientContext :=
  ContainerRequests.mkClientContext ∅ [].

Definition read (answer : nat → Error + ContainerRequests.ReadResponse) :=
  ContainerRequests.read createDocumentCollectionUri getPathFromLink
    getIdFromLink answer orders.

Definition getPartitionKeyDefinition
    (answer : nat → Error + ContainerRequests.ReadResponse) :=
  ContainerRequests.getPartitionKeyDefinition createDocumentCollectionUri
    getPathFromLink getIdFromLink answer orders.

End Cases.

(* ===================================================================== *)
(** ** Properties of [getHeaders] *)
(* ===================================================================== *)

Section Frame.

Context {X : Type} (obs : Heap → X).

Lemma when_preserves c step : preserves obs step → preserves obs (when c step).
Proof. intros H σ. unfold when. destruct c; [apply H|done]. Qed.

Lemma whenState_preserves (c : Heap → bool) step :
  preserves obs step → preserves obs (λ σ, when (c σ) step σ).
Proof. intros H σ. unfold when. destruct (c σ); [apply H|done]. Qed.

Lemma whenTruthy_preserves {A} `{Truthy A} (field : option A) step :
  (∀ a, preserves obs (step a)) → preserves obs (whenTruthy field step).
Proof.
  intros Hstep σ. unfold whenTruthy. destruct field as [a|]; [|done].
  destruct (truthy a); [apply Hstep|done].
Qed.

Lemma whenDefined_preserves {A} (field : option A) step :
  (∀ a, preserves obs (step a)) → preserves obs (whenDefined field step).
Proof.
  intros Hstep σ. unfold whenDefined. destruct field; [apply Hstep|done].
Qed.

Lemma branch_preserves (c : bool) (step1 step2 : Heap → Heap) :
  preserves obs step1 → preserves obs step2 →
  preserves obs (if c then step1 else step2).
Proof. by destruct c. Qed.

(** Stepping over a step that leaves the observation alone. *)
Lemma over_when c step σ x :
  preserves obs step → obs σ = x → obs (when c step σ) = x.
Proof. intros H <-. by apply when_preserves. Qed.

Lemma over_whenTruthy {A} `{Truthy A} (field : option A) step σ x :
  (∀ a, preserves obs (step a)) → obs σ = x → obs (whenTruthy field step σ) = x.
Proof. intros Hs <-. by apply whenTruthy_preserves. Qed.

Lemma over_whenDefined {A} (field : option A) step σ x :
  (∀ a, preserves obs (step a)) → obs σ = x → obs (whenDefined field step σ) = x.
Proof. intros Hs <-. by apply whenDefined_preserves. Qed.

End Frame.

Lemma assign_live l h k v σ : live l σ = true → live l (assign h k v σ) = true.
Proof.
  unfold live, objectAt, assign. cbn. intros Hl.
  destruct (decide (h = l)) as [->|Hne].
  - by rewrite lookup_insert_eq.
  - by rewrite lookup_insert_ne.
Qed.

Lemma assign_keepsLive h k v : keepsLive (assign h k v).
Proof. intros l σ. apply assign_live. Qed.

Lemma when_keepsLive c step : keepsLive step → keepsLive (when c step).
Proof. intros H l σ Hl. unfold when. destruct c; [by apply H|done]. Qed.

Lemma whenState_keepsLive (c : Heap → bool) step :
  keepsLive step → keepsLive (λ σ, when (c σ) step σ).
Proof. intros H l σ Hl. unfold when. destruct (c σ); [by apply H|done]. Qed.

Lemma whenTruthy_keepsLive {A} `{Truthy A} (field : option A) step :
  (∀ a, keepsLive (step a)) → keepsLive (whenTruthy field step).
Proof.
  intros Hstep l σ Hl. unfold whenTruthy. destruct field as [a|]; [|done].
  destruct (truthy a); [by apply Hstep|done].
Qed.

Lemma whenDefined_keepsLive {A} (field : option A) step :
  (∀ a, keepsLive (step a)) → keepsLive (whenDefined field step).
Proof.
  intros Hstep l σ Hl. unfold whenDefined. destruct field; [by apply Hstep|done].
Qed.

Lemma branch_keepsLive (c : bool) (step1 step2 : Heap → Heap) :
  keepsLive step1 → keepsLive step2 → keepsLive (if c then step1 else step2).
Proof. by destruct c. Qed.

Lemma assign_preserves_options h k v : preserves optionObjects (assign h k v).
Proof. done. Qed.

Lemma assign_preserves_object l h k v : l ≠ h → preserves (objectAt l) (assign h k v).
Proof. intros Hl σ. unfold objectAt, assign. cbn. by rewrite lookup_insert_ne. Qed.

Lemma assign_preserves_header h k k' v :
  k ≠ k' → preserves (readHeader h k') (assign h k v).
Proof.
  intros Hk σ. unfold readHeader, assign. cbn.
  by rewrite lookup_total_insert_eq, lookup_insert_ne.
Qed.

Lemma readHeader_assign h k v σ : readHeader h k (assign h k v σ) = Some v.
Proof.
  unfold readHeader, assign. cbn.
  by rewrite lookup_total_insert_eq, lookup_insert_eq.
Qed.

(** Shows that a step leaves an observation alone, one construct of
    [assembleHeaders] at a time; two header names differ when the members
    they stand for do. *)
Ltac frame :=
  lazymatch goal with
  | |- ∀ _, _ => intros ?; frame
  | |- preserves _ (when _ _) => apply when_preserves; frame
  | |- preserves _ (whenTruthy _ _) => apply whenTruthy_preserves; frame
  | |- preserves _ (whenDefined _ _) => apply whenDefined_preserves; frame
  | |- preserves _ (if _ then _ else _) => apply branch_preserves; frame
  | |- preserves _ (λ σ, when _ _ σ) => apply whenState_preserves; frame
  | |- preserves optionObjects (assign _ _ _) => apply assign_preserves_options
  | |- preserves (objectAt _) (assign _ _ _) =>
      apply assign_preserves_object; congruence
  | |- preserves (readHeader _ _) (assign _ _ _) =>
      apply assign_preserves_header;
      let H := fresh in
      intros H;
      match goal with
      | Hd : Constants.distinct _ |- _ => apply Hd in H; discriminate H
      end
  | |- preserves _ _ => progress cbv zeta; frame
  end.

Lemma over_live step l σ :
  keepsLive step → live l σ = true → live l (step σ) = true.
Proof. intros H. apply H. Qed.

(** Shows that a step keeps live references live. *)
Ltac alive :=
  lazymatch goal with
  | |- ∀ _, _ => intros ?; alive
  | |- keepsLive (when _ _) => apply when_keepsLive; alive
  | |- keepsLive (whenTruthy _ _) => apply whenTruthy_keepsLive; alive
  | |- keepsLive (whenDefined _ _) => apply whenDefined_keepsLive; alive
  | |- keepsLive (if _ then _ else _) => apply branch_keepsLive; alive
  | |- keepsLive (λ σ, when _ _ σ) => apply whenState_keepsLive; alive
  | |- keepsLive (assign _ _ _) => apply assign_keepsLive
  | |- keepsLive _ => progress cbv zeta; alive
  end.

(** Steps over the last step of a chain when it leaves the observation at
    hand alone. *)
Ltac over :=
  first [ apply over_when; [frame|]
        | apply over_whenTruthy; [frame|]
        | apply over_whenDefined; [frame|] ].

Section GetHeadersProperties.

Context (env : Collaborators).

Local Abbreviation HttpHeaders := (Constants.HttpHeaders (constants env)).
Local Abbreviation MediaTypes_Json := (Constants.MediaTypes_Json (constants env)).

Section Assemble.

Context (authOptions : AuthOptions) (defaultHeaders : loc)
  (verb : HTTPMethod.t) (options : option loc)
  (partitionKeyRangeId : option string)
  (useMultipleWriteLocations : option bool) (now : string) (σ : Heap).

Let assembled :=
  assembleHeaders env authOptions defaultHeaders verb options
    partitionKeyRangeId useMultipleWriteLocations now σ.

Let opts := readOptions options σ.
Let defaults := headerObjects σ !!! defaultHeaders.
Let headers := fst assembled.

Lemma assembled_fresh : headers = fresh (dom (headerObjects σ)).
Proof. reflexivity. Qed.

Lemma assembled_options : optionObjects (snd assembled) = optionObjects σ.
Proof.
  subst assembled. unfold assembleHeaders, spread. cbv beta iota zeta.
  cbn [snd]. repeat over. reflexivity.
Qed.

Lemma assembled_objects l :
  l ≠ headers → objectAt l (snd assembled) = objectAt l σ.
Proof.
  intros Hl. subst headers assembled.
  unfold assembleHeaders, spread in *. cbv beta iota zeta in *.
  cbn [fst snd] in *. repeat over.
  unfold objectAt. cbn. by rewrite lookup_insert_ne.
Qed.

Lemma assembled_live : live headers (snd assembled) = true.
Proof.
  subst headers assembled. unfold assembleHeaders, spread.
  cbv beta iota zeta. cbn [fst snd].
  repeat (apply over_live; [alive|]).
  unfold live, objectAt. cbn. by rewrite lookup_insert_eq.
Qed.

Hypothesis Hdistinct : Constants.distinct (constants env).

Lemma assembled_XDate :
  readHeader headers (HttpHeaders XDate) (snd assembled)
  = if truthy (masterKey authOptions) || truthy (key authOptions)
       || isSet (tokenProvider authOptions)
    then Some (HStr now)
    else defaults !! HttpHeaders XDate.
Proof.
  subst headers assembled. unfold assembleHeaders, spread.
  cbv beta iota zeta. cbn [fst snd]. repeat over.
  unfold when at 1.
  destruct (truthy (masterKey authOptions) || truthy (key authOptions)
            || isSet (tokenProvider authOptions)).
  - apply readHeader_assign.
  - repeat over. unfold readHeader. cbn. by rewrite lookup_total_insert_eq.
Qed.

Lemma assembled_PartitionKey :
  readHeader headers (HttpHeaders PartitionKey) (snd assembled)
  = match partitionKey opts with
    | Some pk =>
        Some (HStr (jsonStringifyAndEscapeNonASCII env
                      (if isNull pk || negb (isArray pk) then JArr [pk] else pk)))
    | None => defaults !! HttpHeaders PartitionKey
    end.
Proof.
  subst headers assembled opts. unfold assembleHeaders, spread.
  cbv beta iota zeta. cbn [fst snd]. repeat over.
  unfold whenDefined at 1.
  match goal with |- context [partitionKey ?o] => change o with (readOptions options σ) end.
  destruct (partitionKey (readOptions options σ)) as [pk|].
  - apply readHeader_assign.
  - repeat over. unfold readHeader. cbn. by rewrite lookup_total_insert_eq.
Qed.

Lemma assembled_ConsistencyLevel :
  readHeader headers (HttpHeaders ConsistencyLevel) (snd assembled)
  = match consistencyLevel opts with
    | Some level =>
        if truthy level then Some (HStr level)
        else defaults !! HttpHeaders ConsistencyLevel
    | None => defaults !! HttpHeaders ConsistencyLevel
    end.
Proof.
  subst headers assembled opts. unfold assembleHeaders, spread.
  cbv beta iota zeta. cbn [fst snd]. repeat over.
  unfold whenTruthy at 1.
  match goal with |- context [consistencyLevel ?o] => change o with (readOptions options σ) end.
  destruct (consistencyLevel (readOptions options σ)) as [level|];
    [destruct (truthy level)|].
  - apply readHeader_assign.
  - repeat over. unfold readHeader. cbn. by rewrite lookup_total_insert_eq.
  - repeat over. unfold readHeader. cbn. by rewrite lookup_total_insert_eq.
Qed.



End Assemble.

(** What a call that returns headers has done: the headers object is the
    one [assembleHeaders] made, and only that object can differ from what
    [assembleHeaders] left. *)
Lemma getHeaders_returns authOptions defaultHeaders verb path resourceId
    resourceType options partitionKeyRangeId useMultipleWriteLocations now σ :
  let assembled :=
    assembleHeaders env authOptions defaultHeaders verb options
      partitionKeyRangeId useMultipleWriteLocations now σ in
  let out :=
    getHeaders env authOptions defaultHeaders verb path resourceId
      resourceType options partitionKeyRangeId useMultipleWriteLocations
      now σ in
  optionObjects (snd out) = optionObjects (snd assembled)
  ∧ (∀ l, l ≠ fst assembled → objectAt l (snd out) = objectAt l (snd assembled))
  ∧ ∀ headers, fst out = inr headers →
      headers = fst assembled
      ∧ live headers (snd out) = true
      ∧ (signsOnly env → ∀ k, k ≠ HttpHeaders Authorization →
           readHeader headers k (snd out) = readHeader headers k (snd assembled)).
Proof.
  intros assembled out. subst out. unfold getHeaders. fold assembled.
  destruct assembled as [h σa] eqn:Hassembled. cbn [fst snd].
  assert (live h σa = true) as Hlive.
  { pose proof (assembled_live authOptions defaultHeaders verb options
                  partitionKeyRangeId useMultipleWriteLocations now σ) as Hl.
    fold assembled in Hl. by rewrite Hassembled in Hl. }
  destruct (needsAuthorization authOptions);
    [|split_and!; [done..|]; intros ? [= <-]; by split_and!].
  destruct (setAuthorizationHeader env authOptions verb path resourceId
              resourceType (headerObjects σa !!! h)) as [e|signed] eqn:Hsign;
    cbn [fst snd].
  - split_and!; [done..|]. intros ? [=].
  - split_and!; [done| |].
    + intros l Hl. unfold objectAt. cbn. by rewrite lookup_insert_ne.
    + intros ? [= <-]. split_and!; [done| |].
      * unfold live, objectAt. cbn. by rewrite lookup_insert_eq.
      * intros Hsigns k Hk. unfold readHeader. cbn.
        rewrite lookup_total_insert_eq. by eapply Hsigns.
Qed.

Section Claims.

Context (authOptions : AuthOptions) (defaultHeaders : loc)
  (verb : HTTPMethod.t) (path resourceId : string)
  (resourceType : ResourceType) (options : option loc)
  (partitionKeyRangeId : option string)
  (useMultipleWriteLocations : option bool) (now : string) (σ : Heap).

Let out :=
  getHeaders env authOptions defaultHeaders verb path resourceId
    resourceType options partitionKeyRangeId useMultipleWriteLocations
    now σ.

(** What [getHeaders] reads under a header name once it has returned:
    what [assembleHeaders] left there, the authorization header
    apart. *)
Lemma getHeaders_header (n : HttpHeaderName) headers :
  Constants.distinct (constants env) → signsOnly env →
  n ≠ Authorization →
  fst out = inr headers →
  headers = fst (assembleHeaders env authOptions defaultHeaders verb options
                   partitionKeyRangeId useMultipleWriteLocations now σ)
  ∧ readHeader headers (HttpHeaders n) (snd out)
    = readHeader headers (HttpHeaders n)
        (snd (assembleHeaders env authOptions defaultHeaders verb options
                partitionKeyRangeId useMultipleWriteLocations now σ)).
Proof.
  intros Hdistinct Hsigns Hn Hout.
  destruct (getHeaders_returns authOptions defaultHeaders verb path
              resourceId resourceType options partitionKeyRangeId
              useMultipleWriteLocations now σ) as (_ & _ & Hret).
  destruct (Hret headers Hout) as (-> & _ & Hread).
  split; [done|]. apply Hread; [done|].
  intros Heq. apply Hdistinct in Heq. done.
Qed.

(** C9: [getHeaders] leaves the caller's objects as it finds them.  The
    object behind [defaultHeaders], like every object that exists when
    the call starts, has the same content afterwards; no option bag
    changes; and the headers object returned is a new one, not
    [defaultHeaders]. *)
Theorem getHeaders_leaves_caller_state :
  live defaultHeaders σ = true →
  objectAt defaultHeaders (snd out) = objectAt defaultHeaders σ
  ∧ optionObjects (snd out) = optionObjects σ
  ∧ (∀ l, live l σ = true → objectAt l (snd out) = objectAt l σ)
  ∧ ∀ headers, fst out = inr headers →
      headers ≠ defaultHeaders
      ∧ live headers σ = false
      ∧ live headers (snd out) = true.
Proof.
  intros Hlive.
  destruct (getHeaders_returns authOptions defaultHeaders verb path
              resourceId resourceType options partitionKeyRangeId
              useMultipleWriteLocations now σ) as (Hopts & Hobjs & Hret).
  fold out in Hopts, Hobjs, Hret.
  assert (Hfresh : live (fresh (dom (headerObjects σ))) σ = false).
  { unfold live, objectAt.
    destruct (headerObjects σ !! fresh (dom (headerObjects σ))) eqn:E; [|done].
    exfalso. apply (is_fresh (dom (headerObjects σ))).
    apply elem_of_dom. rewrite E. eauto. }
  assert (Hold : ∀ l, live l σ = true → objectAt l (snd out) = objectAt l σ).
  { intros l Hl.
    assert (l ≠ fresh (dom (headerObjects σ))) as Hl' by congruence.
    rewrite Hobjs by done. by apply assembled_objects. }
  split_and!; [by apply Hold|by rewrite Hopts, assembled_options|done|].
  intros headers Hout. destruct (Hret headers Hout) as (-> & Hnew & _).
  rewrite assembled_fresh. split_and!; [congruence|done|].
  by rewrite assembled_fresh in Hnew.
Qed.

(** C4 (as the code has it): the timestamp header is set to the current
    time whenever a master key, a resource-scoped key or a token
    provider is configured; with none of the three, per-resource
    tokens and a permission feed included, [getHeaders] sets no
    timestamp and the header is as [defaultHeaders] has it.  The
    authorization step runs all the same, for per-resource tokens and
    for a permission feed as for the other three: the signer is handed
    the headers assembled so far, and [getHeaders] returns that object
    as the signer left it, or fails with what the signer threw. *)
Theorem getHeaders_timestamp :
  Constants.distinct (constants env) → signsOnly env →
  let assembled :=
    assembleHeaders env authOptions defaultHeaders verb options
      partitionKeyRangeId useMultipleWriteLocations now σ in
  (∀ headers, fst out = inr headers →
     readHeader headers (HttpHeaders XDate) (snd out)
     = if truthy (masterKey authOptions) || truthy (key authOptions)
          || isSet (tokenProvider authOptions)
       then Some (HStr now)
       else readHeader defaultHeaders (HttpHeaders XDate) σ)
  ∧ (truthy (masterKey authOptions) || truthy (key authOptions)
     || isSet (resourceTokens authOptions)
     || isSet (tokenProvider authOptions)
     || isSet (permissionFeed authOptions) = true →
     match setAuthorizationHeader env authOptions verb path resourceId
             resourceType (headerObjects (snd assembled) !!! fst assembled)
     with
     | inr signed =>
         fst out = inr (fst assembled)
         ∧ objectAt (fst assembled) (snd out) = Some signed
     | inl thrown => fst out = inl thrown
     end).
Proof.
  intros Hdistinct Hsigns assembled. split.
  - intros headers Hout.
    destruct (getHeaders_header XDate headers) as [-> ->]; try done.
    by apply assembled_XDate.
  - intros Hcredential. subst out assembled. unfold getHeaders.
    destruct (assembleHeaders env authOptions defaultHeaders verb options
                partitionKeyRangeId useMultipleWriteLocations now σ)
      as [h σa].
    cbn [fst snd]. unfold needsAuthorization. rewrite Hcredential.
    destruct (setAuthorizationHeader env authOptions verb path resourceId
                resourceType (headerObjects σa !!! h)) as [thrown|signed];
      cbn [fst snd]; [done|].
    split; [done|]. unfold objectAt. cbn. by rewrite lookup_insert_eq.
Qed.

(** C6 (as the code has it): a string partition key yields the
    partition-key header holding the escaped JSON text of the
    one-element array of that string; a non-empty consistency level
    yields the consistency-level header holding it; with empty options
    [getHeaders] adds neither header, so each is in the result exactly
    as [defaultHeaders] has it. *)
Theorem getHeaders_partition_key_and_consistency headers :
  Constants.distinct (constants env) → signsOnly env →
  fst out = inr headers →
  let opts := readOptions options σ in
  (∀ s, partitionKey opts = Some (JStr s) →
     readHeader headers (HttpHeaders PartitionKey) (snd out)
     = Some (HStr (jsonStringifyAndEscapeNonASCII env (JArr [JStr s]))))
  ∧ (∀ level, consistencyLevel opts = Some level → truthy level = true →
       readHeader headers (HttpHeaders ConsistencyLevel) (snd out)
       = Some (HStr level))
  ∧ (opts = noOptions →
       readHeader headers (HttpHeaders PartitionKey) (snd out)
       = readHeader defaultHeaders (HttpHeaders PartitionKey) σ
       ∧ readHeader headers (HttpHeaders ConsistencyLevel) (snd out)
         = readHeader defaultHeaders (HttpHeaders ConsistencyLevel) σ).
Proof.
  intros Hdistinct Hsigns Hout opts.
  destruct (getHeaders_header PartitionKey headers) as [-> Hpk]; try done.
  destruct (getHeaders_header ConsistencyLevel _ Hdistinct Hsigns
              ltac:(done) Hout) as [_ Hcl].
  rewrite Hpk, Hcl, assembled_PartitionKey, assembled_ConsistencyLevel by done.
  fold opts. split_and!.
  - by intros s ->.
  - by intros level -> ->.
  - by intros ->.
Qed.


End Claims.

End GetHeadersProperties.

(** *** [getHeaders] on the sample table and signer *)

Module SampleProperties.

Lemma names_distinct : Constants.distinct Sample.constants.
Proof.
  intros a b Hab. cbn in Hab.
  destruct a; destruct b; first [reflexivity | discriminate Hab].
Qed.

Lemma signer_signs_only : signsOnly Sample.collaborators.
Proof.
  intros authOptions verb path resourceId resourceType hs hs' Hsign k Hk.
  cbn in Hsign, Hk. unfold Sample.setAuthorizationHeader in Hsign.
  repeat case_match; simplify_eq; by rewrite ?lookup_insert_ne.
Qed.

End SampleProperties.

(** C9 at a POST signed with a master key: the caller's objects are
    untouched and the headers come back in a new object. *)
Lemma getHeaders_leaves_caller_state_witness :
  live 0%nat (Sample.callerHeap {[ "Accept" := HStr "text/plain" ]}
                Sample.keyedOptions) = true
  ∧ (let σ := Sample.callerHeap {[ "Accept" := HStr "text/plain" ]}
                Sample.keyedOptions in
     let out := Sample.headersFor Sample.masterKeyAuth HTTPMethod.post
                  {[ "Accept" := HStr "text/plain" ]} Sample.keyedOptions in
     objectAt 0%nat (snd out) = objectAt 0%nat σ
     ∧ optionObjects (snd out) = optionObjects σ
     ∧ (∀ l, live l σ = true → objectAt l (snd out) = objectAt l σ)
     ∧ ∀ headers, fst out = inr headers →
         headers ≠ 0%nat ∧ live headers σ = false
         ∧ live headers (snd out) = true).
Proof.
  split; [reflexivity|].
  exact (getHeaders_leaves_caller_state Sample.collaborators Sample.masterKeyAuth
           0%nat HTTPMethod.post "/dbs/db/colls/c" "dbs/db/colls/c" "docs"
           (Some 0%nat) None None Sample.now
           (Sample.callerHeap {[ "Accept" := HStr "text/plain" ]}
              Sample.keyedOptions) eq_refl).
Defined.

(** C4 fails as stated: with per-resource tokens as the only
    credential the call is signed, yet the headers carry no timestamp. *)
Lemma getHeaders_resource_tokens_no_timestamp :
  isSet (resourceTokens Sample.resourceTokenAuth) = true
  ∧ fst (Sample.headersFor Sample.resourceTokenAuth HTTPMethod.get ∅ noOptions)
    = inr 1%nat
  ∧ is_Some (readHeader 1%nat (Sample.HttpHeaders Authorization)
               (snd (Sample.headersFor Sample.resourceTokenAuth HTTPMethod.get
                       ∅ noOptions)))
  ∧ readHeader 1%nat (Sample.HttpHeaders XDate)
      (snd (Sample.headersFor Sample.resourceTokenAuth HTTPMethod.get ∅
              noOptions))
    = None.
Proof. vm_compute. split_and!; eauto. Qed.

(** C4 at a master key: the timestamp is the current time, and the
    outcome is the signer's. *)
Lemma getHeaders_timestamp_witness :
  Constants.distinct Sample.constants
  ∧ signsOnly Sample.collaborators
  ∧ fst (Sample.headersFor Sample.masterKeyAuth HTTPMethod.get ∅ noOptions)
    = inr 1%nat
  ∧ truthy (masterKey Sample.masterKeyAuth) || truthy (key Sample.masterKeyAuth)
    || isSet (resourceTokens Sample.masterKeyAuth)
    || isSet (tokenProvider Sample.masterKeyAuth)
    || isSet (permissionFeed Sample.masterKeyAuth) = true
  ∧ readHeader 1%nat (Sample.HttpHeaders XDate)
      (snd (Sample.headersFor Sample.masterKeyAuth HTTPMethod.get ∅ noOptions))
    = Some (HStr Sample.now)
  ∧ let assembled :=
      assembleHeaders Sample.collaborators Sample.masterKeyAuth 0%nat
        HTTPMethod.get (Some 0%nat) None None Sample.now
        (Sample.callerHeap ∅ noOptions) in
    match Sample.setAuthorizationHeader Sample.masterKeyAuth HTTPMethod.get
            "/dbs/db/colls/c" "dbs/db/colls/c" "docs"
            (headerObjects (snd assembled) !!! fst assembled)
    with
    | inr signed =>
        fst (Sample.headersFor Sample.masterKeyAuth HTTPMethod.get ∅ noOptions)
        = inr (fst assembled)
        ∧ objectAt (fst assembled)
            (snd (Sample.headersFor Sample.masterKeyAuth HTTPMethod.get ∅
                    noOptions))
          = Some signed
    | inl thrown =>
        fst (Sample.headersFor Sample.masterKeyAuth HTTPMethod.get ∅ noOptions)
        = inl thrown
    end.
Proof.
  split; [exact SampleProperties.names_distinct|].
  split; [exact SampleProperties.signer_signs_only|].
  split; [reflexivity|]. split; [reflexivity|].
  pose proof (getHeaders_timestamp Sample.collaborators Sample.masterKeyAuth
                0%nat HTTPMethod.get "/dbs/db/colls/c" "dbs/db/colls/c" "docs"
                (Some 0%nat) None None Sample.now
                (Sample.callerHeap ∅ noOptions)
                SampleProperties.names_distinct
                SampleProperties.signer_signs_only) as [Hdate Hsigned].
  split; [exact (Hdate 1%nat eq_refl)|exact (Hsigned eq_refl)].
Defined.

(** C6 fails as stated: with empty options the consistency-level
    header of the default headers is in the result. *)
Lemma getHeaders_empty_options_default_consistency :
  readOptions (Some 0%nat) (Sample.callerHeap Sample.strongDefaults noOptions)
    = noOptions
  ∧ fst (Sample.headersFor Sample.noAuth HTTPMethod.get Sample.strongDefaults
           noOptions)
    = inr 1%nat
  ∧ readHeader 1%nat (Sample.HttpHeaders ConsistencyLevel)
      (snd (Sample.headersFor Sample.noAuth HTTPMethod.get
              Sample.strongDefaults noOptions))
    = Some (HStr "Strong").
Proof. by vm_compute. Qed.

(** C6 at [{partitionKey: "abc", consistencyLevel: "Session"}] and at
    [{}]. *)
Lemma getHeaders_partition_key_and_consistency_witness :
  Constants.distinct Sample.constants
  ∧ signsOnly Sample.collaborators
  ∧ (let out := Sample.headersFor Sample.masterKeyAuth HTTPMethod.get ∅
                  Sample.keyedOptions in
     fst out = inr 1%nat
     ∧ readHeader 1%nat (Sample.HttpHeaders PartitionKey) (snd out)
       = Some (HStr ("[" ++ quote "abc" ++ "]"))
     ∧ readHeader 1%nat (Sample.HttpHeaders ConsistencyLevel) (snd out)
       = Some (HStr "Session"))
  ∧ (let out := Sample.headersFor Sample.masterKeyAuth HTTPMethod.get ∅
                  noOptions in
     fst out = inr 1%nat
     ∧ readHeader 1%nat (Sample.HttpHeaders PartitionKey) (snd out) = None
     ∧ readHeader 1%nat (Sample.HttpHeaders ConsistencyLevel) (snd out) = None).
Proof.
  split; [exact SampleProperties.names_distinct|].
  split; [exact SampleProperties.signer_signs_only|].
  split.
  - split; [reflexivity|]. split.
    + exact (proj1 (getHeaders_partition_key_and_consistency
               Sample.collaborators Sample.masterKeyAuth 0%nat HTTPMethod.get
               "/dbs/db/colls/c" "dbs/db/colls/c" "docs" (Some 0%nat) None None
               Sample.now (Sample.callerHeap ∅ Sample.keyedOptions) 1%nat
               SampleProperties.names_distinct
               SampleProperties.signer_signs_only eq_refl) "abc" eq_refl).
    + exact (proj1 (proj2 (getHeaders_partition_key_and_consistency
               Sample.collaborators Sample.masterKeyAuth 0%nat HTTPMethod.get
               "/dbs/db/colls/c" "dbs/db/colls/c" "docs" (Some 0%nat) None None
               Sample.now (Sample.callerHeap ∅ Sample.keyedOptions) 1%nat
               SampleProperties.names_distinct
               SampleProperties.signer_signs_only eq_refl))
             "Session" eq_refl eq_refl).
  - split; [reflexivity|].
    exact (proj2 (proj2 (getHeaders_partition_key_and_consistency
             Sample.collaborators Sample.masterKeyAuth 0%nat HTTPMethod.get
             "/dbs/db/colls/c" "dbs/db/colls/c" "docs" (Some 0%nat) None None
             Sample.now (Sample.callerHeap ∅ noOptions) 1%nat
             SampleProperties.names_distinct
             SampleProperties.signer_signs_only eq_refl)) eq_refl).
Defined.



(* ===================================================================== *)
(** ** Properties of [request] *)
(* ===================================================================== *)

Section RequestProperties.

Context (consts : Constants.t).

Local Abbreviation HttpHeaders := (Constants.HttpHeaders consts).

Lemma clearTimeout_not_pending w : timeout (clearTimeout w) ≠ Some Pending.
Proof. unfold clearTimeout. simpl. by destruct (timeout w) as [[]|]. Qed.

Lemma deliver_fetch_calls b w ev : fetch_calls (deliver b w ev) = fetch_calls w.
Proof.
  destruct ev; simpl.
  - by destruct (timeout w) as [[]|].
  - destruct (b && negb (user_aborted w)); [|done]. simpl.
    by destruct (user_listener w).
Qed.

Lemma deliver_json_calls b w ev : json_calls (deliver b w ev) = json_calls w.
Proof.
  destruct ev; simpl.
  - by destruct (timeout w) as [[]|].
  - destruct (b && negb (user_aborted w)); [|done]. simpl.
    by destruct (user_listener w).
Qed.

Lemma deliver_user_aborted b w ev :
  user_aborted (deliver b w ev)
  = user_aborted w || (b && bool_decide (ev = UserAborts)).
Proof.
  destruct ev; simpl.
  - destruct (timeout w) as [[]|]; simpl; by rewrite andb_false_r, orb_false_r.
  - destruct b, (user_aborted w) eqn:E; simpl; rewrite ?E; try done.
    by destruct (user_listener w).
Qed.

Lemma deliverAll_fetch_calls b evs w :
  fetch_calls (foldl (deliver b) w evs) = fetch_calls w.
Proof.
  revert w. induction evs as [|ev evs IH]; intros w; simpl; [done|].
  by rewrite IH, deliver_fetch_calls.
Qed.

Lemma deliverAll_json_calls b evs w :
  json_calls (foldl (deliver b) w evs) = json_calls w.
Proof.
  revert w. induction evs as [|ev evs IH]; intros w; simpl; [done|].
  by rewrite IH, deliver_json_calls.
Qed.

Lemma deliverAll_user_aborted b evs w :
  user_aborted (foldl (deliver b) w evs)
  = user_aborted w || (b && bool_decide (UserAborts ∈ evs)).
Proof.
  revert w. induction evs as [|ev evs IH]; intros w; cbn [foldl].
  - rewrite bool_decide_eq_false_2 by (by intros ?%elem_of_nil).
    by rewrite andb_false_r, orb_false_r.
  - rewrite IH, deliver_user_aborted.
    rewrite <- orb_assoc, <- andb_orb_distrib_r. do 2 f_equal.
    apply eq_true_iff_eq. rewrite orb_true_iff, !bool_decide_eq_true.
    rewrite elem_of_cons. intuition congruence.
Qed.

(** A timer that has been set stays set, and one that is no longer
    pending never becomes pending again. *)
Lemma deliverAll_not_pending b evs w :
  timeout w ≠ Some Pending → timeout (foldl (deliver b) w evs) ≠ Some Pending.
Proof.
  revert w. induction evs as [|ev evs IH]; intros w Hw; simpl; [done|].
  apply IH. destruct ev; simpl.
  - destruct (timeout w) as [[]|] eqn:E; simpl; congruence.
  - destruct (b && negb (user_aborted w)); [|done]. simpl.
    by destruct (user_listener w).
Qed.

Lemma deliverAll_pending b evs w :
  timeout w = Some Pending → TimerExpires ∉ evs →
  timeout (foldl (deliver b) w evs) = Some Pending.
Proof.
  revert w. induction evs as [|ev evs IH]; intros w Hw Hevs; simpl; [done|].
  apply not_elem_of_cons in Hevs as [Hev Hevs].
  apply IH; [|done].
  destruct ev; simpl; [done|].
  destruct (b && negb (user_aborted w)); [|done]. simpl.
  by destruct (user_listener w).
Qed.


Lemma deliverAll_timer_set b evs w :
  is_Some (timeout w) → is_Some (timeout (foldl (deliver b) w evs)).
Proof.
  revert w. induction evs as [|ev evs IH]; intros w Hw; simpl; [done|].
  apply IH. destruct ev; simpl.
  - destruct (timeout w) as [[]|] eqn:E; simpl; rewrite ?E; eauto.
  - destruct (b && negb (user_aborted w)); [|done]. simpl.
    by destruct (user_listener w).
Qed.

Lemma clearTimeout_settled w :
  is_Some (timeout w) →
  timeout (clearTimeout w) = Some Cleared ∨ timeout (clearTimeout w) = Some Fired.
Proof. intros [[] Hs]; simpl; rewrite Hs; auto. Qed.

(** The state in which the transport's promise settles: the timer is
    set, the caller's signal is wired in, the transport has been called
    once and the events have been delivered. *)
Lemma request_rejected policy ro payload userSignal evs e :
  ∃ w,
    request consts policy ro payload userSignal (mkExchange evs (inl e))
    = (if String.eqb (name e) "AbortError"
       then if isSet userSignal && user_aborted w
            then (Rejected (OfError e), clearTimeout w)
            else (Rejected TimeoutError, w)
       else (Rejected (OfError e), w))
    ∧ user_aborted w = userAborted userSignal evs
    ∧ is_Some (timeout w)
    ∧ (TimerExpires ∉ evs → timeout w = Some Pending)
    ∧ json_calls w = 0%nat
    ∧ ∃ init, fetch_calls w = [init]
        ∧ Fetch.init_signal_aborted init
          = match userSignal with Some s => aborted s | None => false end.
Proof.
  unfold request. cbn [settles whileFetching].
  eexists. split; [reflexivity|].
  rewrite deliverAll_user_aborted, deliverAll_fetch_calls, deliverAll_json_calls.
  split_and!.
  - destruct userSignal as [[[]]|]; reflexivity.
  - apply deliverAll_timer_set. destruct userSignal as [[[]]|]; simpl; eauto.
  - intros Hevs. apply deliverAll_pending; [|done].
    by destruct userSignal as [[[]]|].
  - by destruct userSignal as [[[]]|].
  - destruct userSignal as [[[]]|]; simpl; eauto.
Qed.

Lemma request_responded policy ro payload userSignal evs r :
  ∃ w,
    request consts policy ro payload userSignal (mkExchange evs (inr r))
    = classify consts r w
    ∧ is_Some (timeout w) ∧ json_calls w = 0%nat
    ∧ ∃ init, fetch_calls w = [init]
        ∧ Fetch.init_signal_aborted init
          = match userSignal with Some s => aborted s | None => false end.
Proof.
  unfold request. cbn [settles whileFetching].
  eexists. split; [reflexivity|].
  rewrite deliverAll_fetch_calls, deliverAll_json_calls.
  split_and!.
  - apply deliverAll_timer_set. destruct userSignal as [[[]]|]; simpl; eauto.
  - by destruct userSignal as [[[]]|].
  - destruct userSignal as [[[]]|]; simpl; eauto.
Qed.

Lemma classify_fetch_calls r w :
  fetch_calls (snd (classify consts r w)) = fetch_calls w.
Proof. unfold classify. by repeat case_match; simplify_eq. Qed.

(** C1: when the transport fails with an [AbortError], an aborted caller
    signal gets the original error back, unchanged, with the timeout
    settled by [clearTimeout] (cancelled, unless it had fired already);
    otherwise a [TimeoutError] is raised.  The two outcomes are different
    error kinds. *)
Theorem request_abort_error_kind policy ro payload userSignal evs e :
  name e = "AbortError" →
  let out := request consts policy ro payload userSignal
               (mkExchange evs (inl e)) in
  (if userAborted userSignal evs
   then fst out = Rejected (OfError e)
        ∧ (timeout (snd out) = Some Cleared ∨ timeout (snd out) = Some Fired)
        ∧ (TimerExpires ∉ evs → timeout (snd out) = Some Cleared)
   else fst out = Rejected TimeoutError)
  ∧ Rejected (OfError e) ≠ Rejected TimeoutError.
Proof.
  intros Hname out. split; [|done].
  destruct (request_rejected policy ro payload userSignal evs e)
    as (w & Hout & Hua & Hset & Hpending & _).
  subst out. rewrite Hout, Hname, String.eqb_refl, Hua.
  destruct userSignal as [s|]; cbn [isSet andb userAborted].
  - destruct (aborted s || bool_decide (UserAborts ∈ evs)); cbn [fst snd]; [|done].
    split_and!; [done|by apply clearTimeout_settled|].
    intros Hevs. unfold clearTimeout. cbn. by rewrite (Hpending Hevs).
  - done.
Qed.

(** C7: with a caller signal that is already aborted when the call
    starts, the transport is called once, with an aborted signal, and
    the call is rejected with the transport's cancellation error: not a
    [TimeoutError], not a success.  The timeout is not left pending. *)
Theorem request_signal_already_aborted policy ro payload s x :
  aborted s = true →
  (∀ init,
     init ∈ fetch_calls (snd (request consts policy ro payload (Some s) x)) →
     honoursAbort init x) →
  let out := request consts policy ro payload (Some s) x in
  (∃ e, settles x = inl e ∧ name e = "AbortError"
        ∧ fst out = Rejected (OfError e))
  ∧ fst out ≠ Rejected TimeoutError
  ∧ (∀ r, fst out ≠ Resolved r)
  ∧ (∃ init, fetch_calls (snd out) = [init]
             ∧ Fetch.init_signal_aborted init = true)
  ∧ timeout (snd out) ≠ Some Pending.
Proof.
  intros Hs Hfetch out. subst out.
  destruct x as [evs [e|r]].
  - destruct (request_rejected policy ro payload (Some s) evs e)
      as (w & Hout & Hua & Hset & _ & _ & init & Hcalls & Hinit).
    assert (Hcalls' :
      fetch_calls (snd (request consts policy ro payload (Some s)
                          (mkExchange evs (inl e)))) = [init]).
    { rewrite Hout. by repeat case_match. }
    destruct (Hfetch init) as (e' & He' & Hname).
    { rewrite Hcalls'. by left. }
    { by rewrite Hinit. }
    cbn [settles] in He'. injection He' as <-.
    rewrite Hcalls'.
    rewrite Hout, Hname, String.eqb_refl, Hua. cbn [userAborted isSet].
    rewrite Hs. cbn [orb andb fst snd].
    rewrite Hs in Hinit.
    split_and!; eauto using clearTimeout_not_pending.
  - destruct (request_responded policy ro payload (Some s) evs r)
      as (w & Hout & _ & _ & init & Hcalls & Hinit).
    destruct (Hfetch init) as (e' & He' & _); [| |discriminate He'].
    + rewrite Hout, classify_fetch_calls, Hcalls. by left.
    + by rewrite Hinit.
Qed.

Lemma deliverAll_timer_expired b evs w :
  TimerExpires ∈ evs → timeout (foldl (deliver b) w evs) ≠ Some Pending.
Proof.
  revert w. induction evs as [|ev evs IH]; intros w Hin; cbn [foldl].
  - by apply elem_of_nil in Hin.
  - apply elem_of_cons in Hin as [<-|Hin]; [|by apply IH].
    apply deliverAll_not_pending. cbn.
    destruct (timeout w) as [[]|] eqn:E; cbn; congruence.
Qed.

Lemma classify_timeout r w :
  timeout (snd (classify consts r w)) = timeout (clearTimeout w).
Proof. unfold classify. by repeat case_match; simplify_eq. Qed.

Lemma request_rejected_expired policy ro payload userSignal evs e :
  TimerExpires ∈ evs →
  timeout (snd (request consts policy ro payload userSignal
                  (mkExchange evs (inl e)))) ≠ Some Pending.
Proof.
  intros Hexpired. unfold request. cbn [settles whileFetching].
  repeat case_match; cbn [snd];
    first [apply clearTimeout_not_pending | by apply deliverAll_timer_expired].
Qed.

(** Every exit but the plain transport failure leaves no pending timer:
    a response clears it at line 229, the caller's abort at line 221, and
    a [TimeoutError] is raised only after it has fired, the transport
    raising an [AbortError] only for a signal that has been aborted. *)
Lemma request_timer_settled_elsewhere policy ro payload userSignal x :
  (∀ e, settles x = inl e →
        name e = "AbortError"
        ∧ (userAborted userSignal (whileFetching x) = true
           ∨ TimerExpires ∈ whileFetching x)) →
  timeout (snd (request consts policy ro payload userSignal x)) ≠ Some Pending.
Proof.
  destruct x as [evs [e|r]]; cbn [settles whileFetching]; intros Htransport.
  - destruct (Htransport e eq_refl) as [Hname [Huser|Hexpired]].
    + destruct (request_rejected policy ro payload userSignal evs e)
        as (w & Hout & Hua & _).
      rewrite Hout, Hname, String.eqb_refl, Hua, Huser.
      destruct userSignal as [s|]; [|done]. cbn [isSet andb snd].
      apply clearTimeout_not_pending.
    + by apply request_rejected_expired.
  - destruct (request_responded policy ro payload userSignal evs r)
      as (w & -> & _).
    rewrite classify_timeout. apply clearTimeout_not_pending.
Qed.

(** C2 (the failing path): a transport failure that is not an abort,
    arriving before the timer expires, is re-raised with the timer of
    line 191 still pending. *)
Theorem request_transport_failure_leaves_timer policy ro payload userSignal evs e :
  name e ≠ "AbortError" →
  TimerExpires ∉ evs →
  let out := request consts policy ro payload userSignal
               (mkExchange evs (inl e)) in
  fst out = Rejected (OfError e) ∧ timeout (snd out) = Some Pending.
Proof.
  intros Hname Hevs out. subst out.
  destruct (request_rejected policy ro payload userSignal evs e)
    as (w & Hout & _ & _ & Hpending & _).
  rewrite Hout. apply String.eqb_neq in Hname. rewrite Hname.
  cbn [fst snd]. auto.
Qed.


(** The materialized headers hold, under each name, the value of the
    last entry of that name. *)
Lemma materialize_lookup (es : list (string * string)) (k : string) :
  materialize es !! k = snd <$> last (filter (λ kv, fst kv = k) es).
Proof.
  unfold materialize.
  induction es as [|[k' v] es IH] using rev_ind; [done|].
  rewrite foldl_app, filter_app. cbn [foldl fst snd].
  rewrite filter_cons, filter_nil. cbn [fst].
  destruct (decide (k' = k)) as [->|Hne].
  - by rewrite lookup_insert_eq, last_snoc.
  - by rewrite lookup_insert_ne, app_nil_r.
Qed.

(** C3 (as the code has it): statuses 204 and 304 resolve with a null
    result and the body is never parsed; for any other status the body
    is parsed and a parse failure is what the call is rejected with, no
    envelope of either kind being produced; with a parsed body, a status
    from 400 on rejects with the error envelope and a status below 400
    resolves with [{headers, result, statusCode}]. *)
Theorem request_classifies_response policy ro payload userSignal evs r :
  let out := request consts policy ro payload userSignal
               (mkExchange evs (inr r)) in
  let status := Fetch.status r in
  let headers := materialize (Fetch.entries r) in
  (status = 204 ∨ status = 304 →
     fst out = Resolved (mkResponse headers JNull status)
     ∧ json_calls (snd out) = 0%nat)
  ∧ (status ≠ 204 → status ≠ 304 →
     json_calls (snd out) = 1%nat
     ∧ (∀ e, Fetch.json r = inl e → fst out = Rejected (OfError e))
     ∧ (∀ v, Fetch.json r = inr v →
          ((400 ≤ status)%Z →
             fst out = Rejected (OfErrorResponse
                                   (errorResponseOf consts status v headers)))
          ∧ ((status < 400)%Z →
             fst out = Resolved (mkResponse headers v status)))).
Proof.
  intros out status headers. subst out status headers.
  destruct (request_responded policy ro payload userSignal evs r)
    as (w & -> & _ & Hjson & _).
  unfold classify. split.
  - intros Hst.
    assert ((Fetch.status r =? 204)%Z || (Fetch.status r =? 304)%Z = true) as ->.
    { destruct Hst as [-> | ->]; reflexivity. }
    assert ((400 <=? Fetch.status r)%Z = false) as ->.
    { destruct Hst as [-> | ->]; reflexivity. }
    done.
  - intros H204 H304.
    apply Z.eqb_neq in H204, H304. rewrite H204, H304. cbn [orb].
    destruct (Fetch.json r) as [e|v]; cbn [fst snd].
    + split_and!; [by cbn; rewrite Hjson| |done]. by intros ? [= <-].
    + split_and!; [|done|].
      * destruct (400 <=? Fetch.status r)%Z; by cbn; rewrite Hjson.
      * intros ? [= <-]. split; intros Hst.
        -- apply Z.leb_le in Hst. by rewrite Hst.
        -- apply Z.leb_gt in Hst. by rewrite Hst.
Qed.

(** C5: a rejection that carries an error envelope comes from a response
    with a status from 400 on whose body parsed; the envelope has that
    status as code, the materialized response headers, the parsed body
    turned back into text, and the activity id, the sub-status and the
    retry-after delay (both through [parseInt]) exactly when the
    response has the corresponding header. *)
Theorem request_error_envelope policy ro payload userSignal x er :
  fst (request consts policy ro payload userSignal x)
    = Rejected (OfErrorResponse er) →
  ∃ r v,
    settles x = inr r ∧ Fetch.json r = inr v ∧ (400 ≤ Fetch.status r)%Z
    ∧ code er = Fetch.status r
    ∧ body er = JSON_stringify v
    ∧ (∀ k, error_headers er !! k
            = snd <$> last (filter (λ kv, fst kv = k) (Fetch.entries r)))
    ∧ activityId er = error_headers er !! HttpHeaders ActivityId
    ∧ substatus er
      = parseInt10 <$> (error_headers er !! HttpHeaders SubStatus)
    ∧ retryAfterInMilliseconds er
      = parseInt10
          <$> (error_headers er !! HttpHeaders RetryAfterInMilliseconds).
Proof.
  destruct x as [evs [e|r]].
  - destruct (request_rejected policy ro payload userSignal evs e) as (w & -> & _).
    intros Hout. by repeat case_match.
  - destruct (request_responded policy ro payload userSignal evs r) as (w & -> & _).
    unfold classify. intros Hout. exists r.
    destruct ((Fetch.status r =? 204)%Z || (Fetch.status r =? 304)%Z) eqn:Hst.
    + destruct (400 <=? Fetch.status r)%Z eqn:Hge; [|done].
      apply Z.leb_le in Hge. apply orb_true_iff in Hst as [Hst|Hst];
        apply Z.eqb_eq in Hst; lia.
    + destruct (Fetch.json r) as [e|v]; [done|].
      destruct (400 <=? Fetch.status r)%Z eqn:Hge; [|done].
      apply Z.leb_le in Hge. cbn [fst] in Hout. injection Hout as <-.
      exists v. split_and!; try done.
      intros k. apply materialize_lookup.
Qed.

End RequestProperties.

(** *** [request] on sample exchanges *)

(** C1 at a caller who aborts while the transport is busy, and at a timer
    that expires first. *)
Lemma request_abort_error_kind_witness :
  name Sample.abortError = "AbortError"
  ∧ (let out := Sample.attempt (Some (mkAbortSignal false))
                  (mkExchange [UserAborts] (inl Sample.abortError)) in
     (fst out = Rejected (OfError Sample.abortError)
      ∧ (timeout (snd out) = Some Cleared ∨ timeout (snd out) = Some Fired)
      ∧ (TimerExpires ∉ [UserAborts] → timeout (snd out) = Some Cleared))
     ∧ Rejected (OfError Sample.abortError) ≠ Rejected TimeoutError)
  ∧ (let out := Sample.attempt (Some (mkAbortSignal false))
                  (mkExchange [TimerExpires] (inl Sample.abortError)) in
     fst out = Rejected TimeoutError
     ∧ Rejected (OfError Sample.abortError) ≠ Rejected TimeoutError).
Proof.
  split; [reflexivity|]. split.
  - exact (request_abort_error_kind Sample.constants Sample.policy
             Sample.requestOptions None (Some (mkAbortSignal false))
             [UserAborts] Sample.abortError eq_refl).
  - exact (request_abort_error_kind Sample.constants Sample.policy
             Sample.requestOptions None (Some (mkAbortSignal false))
             [TimerExpires] Sample.abortError eq_refl).
Defined.

(** C7 at a transport that rejects the aborted call at once. *)
Lemma request_signal_already_aborted_witness :
  aborted (mkAbortSignal true) = true
  ∧ (∀ init,
       init ∈ fetch_calls
                (snd (Sample.attempt (Some (mkAbortSignal true))
                        (mkExchange [] (inl Sample.abortError)))) →
       honoursAbort init (mkExchange [] (inl Sample.abortError)))
  ∧ (let out := Sample.attempt (Some (mkAbortSignal true))
                  (mkExchange [] (inl Sample.abortError)) in
     (∃ e, settles (mkExchange [] (inl Sample.abortError)) = inl e
           ∧ name e = "AbortError" ∧ fst out = Rejected (OfError e))
     ∧ fst out ≠ Rejected TimeoutError
     ∧ (∀ r, fst out ≠ Resolved r)
     ∧ (∃ init, fetch_calls (snd out) = [init]
                ∧ Fetch.init_signal_aborted init = true)
     ∧ timeout (snd out) ≠ Some Pending).
Proof.
  split; [reflexivity|].
  assert (∀ init,
            init ∈ fetch_calls
                     (snd (Sample.attempt (Some (mkAbortSignal true))
                             (mkExchange [] (inl Sample.abortError)))) →
            honoursAbort init (mkExchange [] (inl Sample.abortError)))
    as Hhonours.
  { intros init _ _. exists Sample.abortError. split; reflexivity. }
  split; [exact Hhonours|].
  exact (request_signal_already_aborted Sample.constants Sample.policy
           Sample.requestOptions None (mkAbortSignal true)
           (mkExchange [] (inl Sample.abortError)) eq_refl Hhonours).
Defined.

(** C2 at a refused connection: the call is rejected with the transport's
    error while the timer is still pending. *)
Lemma request_transport_failure_leaves_timer_witness :
  name Sample.connectionRefused ≠ "AbortError"
  ∧ (TimerExpires ∉ ([] : list Event))
  ∧ (let out := Sample.attempt None
                  (mkExchange [] (inl Sample.connectionRefused)) in
     fst out = Rejected (OfError Sample.connectionRefused)
     ∧ timeout (snd out) = Some Pending).
Proof.
  assert (name Sample.connectionRefused ≠ "AbortError") as Hname by discriminate.
  assert (TimerExpires ∉ ([] : list Event)) as Hevs by apply not_elem_of_nil.
  split; [exact Hname|]. split; [exact Hevs|].
  exact (request_transport_failure_leaves_timer Sample.constants Sample.policy
           Sample.requestOptions None None [] Sample.connectionRefused
           Hname Hevs).
Defined.

(** C3 fails as stated: a 404 whose body does not parse is
    rejected with the parse error; neither an error envelope nor a success
    envelope comes out of the attempt. *)
Lemma request_unparsable_error_body :
  Fetch.status Sample.notFoundUnparsable = 404
  ∧ fst (Sample.attempt None (mkExchange [] (inr Sample.notFoundUnparsable)))
    = Rejected (OfError Sample.syntaxError)
  ∧ (∀ er, fst (Sample.attempt None
                  (mkExchange [] (inr Sample.notFoundUnparsable)))
           ≠ Rejected (OfErrorResponse er))
  ∧ (∀ r, fst (Sample.attempt None
                 (mkExchange [] (inr Sample.notFoundUnparsable)))
          ≠ Resolved r).
Proof. vm_compute. split_and!; [done..| |]; intros ? [=]. Qed.

(** C3 at a 204 and at a 404 whose body parses. *)
Lemma request_classifies_response_witness :
  (let out := Sample.attempt None (mkExchange [] (inr Sample.noContent)) in
   fst out = Resolved (mkResponse (materialize (Fetch.entries Sample.noContent))
                         JNull 204)
   ∧ json_calls (snd out) = 0%nat)
  ∧ (let out := Sample.attempt None (mkExchange [] (inr Sample.notFound)) in
     fst out = Rejected (OfErrorResponse
                           (errorResponseOf Sample.constants 404
                              Sample.notFoundBody
                              (materialize (Fetch.entries Sample.notFound))))).
Proof.
  split.
  - exact (proj1 (request_classifies_response Sample.constants Sample.policy
                    Sample.requestOptions None None [] Sample.noContent)
             (or_introl eq_refl)).
  - assert (404 ≠ 204) as H204 by discriminate.
    assert (404 ≠ 304) as H304 by discriminate.
    assert ((400 ≤ 404)%Z) as Hge by discriminate.
    exact (proj1 (proj2 (proj2 (proj2 (request_classifies_response
                    Sample.constants Sample.policy Sample.requestOptions None
                    None [] Sample.notFound) H204 H304))
                    Sample.notFoundBody eq_refl) Hge).
Defined.

(** C5 at a 404 that carries an activity id and a sub-status, and no
    retry-after header. *)
Lemma request_error_envelope_witness :
  fst (Sample.attempt None (mkExchange [] (inr Sample.notFound)))
    = Rejected (OfErrorResponse Sample.notFoundEnvelope)
  ∧ ∃ r v,
      settles (mkExchange [] (inr Sample.notFound)) = inr r
      ∧ Fetch.json r = inr v ∧ (400 ≤ Fetch.status r)%Z
      ∧ code Sample.notFoundEnvelope = Fetch.status r
      ∧ body Sample.notFoundEnvelope = JSON_stringify v
      ∧ (∀ k, error_headers Sample.notFoundEnvelope !! k
              = snd <$> last (filter (λ kv, fst kv = k) (Fetch.entries r)))
      ∧ activityId Sample.notFoundEnvelope
        = error_headers Sample.notFoundEnvelope !! Sample.HttpHeaders ActivityId
      ∧ substatus Sample.notFoundEnvelope
        = parseInt10
            <$> (error_headers Sample.notFoundEnvelope
                 !! Sample.HttpHeaders SubStatus)
      ∧ retryAfterInMilliseconds Sample.notFoundEnvelope
        = parseInt10
            <$> (error_headers Sample.notFoundEnvelope
                 !! Sample.HttpHeaders RetryAfterInMilliseconds).
Proof.
  assert (fst (Sample.attempt None (mkExchange [] (inr Sample.notFound)))
          = Rejected (OfErrorResponse Sample.notFoundEnvelope)) as Hout
    by (by vm_compute).
  split; [exact Hout|].
  exact (request_error_envelope Sample.constants Sample.policy
           Sample.requestOptions None None
           (mkExchange [] (inr Sample.notFound)) Sample.notFoundEnvelope Hout).
Defined.

(* ===================================================================== *)
(** ** Properties of the [Container] accessors *)
(* ===================================================================== *)

Module ResourcesProperties.
Import Resources.

Lemma this_update_eq this f σ : this_ this (update this f σ) = f (this_ this σ).
Proof. unfold this_, update. cbn. by rewrite lookup_total_insert_eq. Qed.

Lemma this_update_ne this that f σ :
  that ≠ this → this_ this (update that f σ) = this_ this σ.
Proof. intros. unfold this_, update. cbn. by rewrite lookup_total_insert_ne. Qed.

Lemma constructions_update k this that f σ :
  constructions k this (update that f σ) = constructions k this σ.
Proof. done. Qed.

Lemma this_new this o σ : this_ this (snd (new o σ)) = this_ this σ.
Proof. done. Qed.

Lemma constructions_new k this o σ :
  constructions k this (snd (new o σ))
  = (constructions k this σ
     + if decide (class o = k ∧ container o = this) then 1 else 0)%nat.
Proof.
  unfold constructions, new. cbn [snd objects].
  rewrite filter_app, length_app, filter_cons, filter_nil.
  by case_decide.
Qed.

Lemma items_lazily : items = lazily Items.
Proof. reflexivity. Qed.
Lemma storedProcedures_lazily : storedProcedures = lazily StoredProcedures.
Proof. reflexivity. Qed.
Lemma triggers_lazily : __triggers = lazily Triggers.
Proof. reflexivity. Qed.
Lemma userDefinedFunctions_lazily :
  __userDefinedFunctions = lazily UserDefinedFunctions.
Proof. reflexivity. Qed.
Lemma conflicts_lazily : conflicts = lazily Conflicts.
Proof. reflexivity. Qed.

Lemma lazily_hit k this σ o :
  cacheOf k (this_ this σ) = Some o → lazily k this σ = (Some o, σ).
Proof.
  intros Hset. unfold lazily. rewrite Hset. cbn [isSet negb]. by rewrite Hset.
Qed.

Lemma lazily_miss k this σ :
  cacheOf k (this_ this σ) = None →
  let made := new (mkObject k this None None (clientContext (this_ this σ))) σ in
  let σ' := update this (setCache k (fst made)) (snd made) in
  lazily k this σ = (cacheOf k (this_ this σ'), σ').
Proof. intros Hunset made σ'. unfold lazily. rewrite Hunset. reflexivity. Qed.

Lemma cached_cases k :
  cached k →
  k = Items ∨ k = StoredProcedures ∨ k = Triggers
  ∨ k = UserDefinedFunctions ∨ k = Conflicts.
Proof.
  unfold cached. rewrite !elem_of_cons, elem_of_nil. intuition.
Qed.

Lemma cacheOf_setCache_eq k o c : cached k → cacheOf k (setCache k o c) = Some o.
Proof. intros Hk%cached_cases. by destruct Hk as [->|[->|[->|[->| ->]]]]. Qed.

Lemma cacheOf_setCache_ne k k' o c :
  k' ≠ k → cacheOf k (setCache k' o c) = cacheOf k c.
Proof. by destruct k, k'. Qed.

Lemma lazily_budget k k' this that σ :
  cached k' → budget k this (snd (lazily k' that σ)) = budget k this σ.
Proof.
  intros Hk'.
  destruct (cacheOf k' (this_ that σ)) as [o|] eqn:Hcache.
  { by rewrite (lazily_hit _ _ _ o). }
  rewrite lazily_miss by done. unfold budget. cbn [snd].
  rewrite constructions_update, constructions_new. cbn [class container].
  destruct (decide (that = this)) as [->|Hthat].
  - rewrite this_update_eq, this_new.
    destruct (decide (k' = k)) as [->|Hk].
    + rewrite cacheOf_setCache_eq, Hcache by done. cbn [isSet].
      rewrite decide_True by done. lia.
    + rewrite cacheOf_setCache_ne by done.
      rewrite decide_False by (intros [? ?]; congruence). lia.
  - rewrite this_update_ne, this_new by done.
    rewrite decide_False by (intros [? ?]; congruence). lia.
Qed.

Lemma factory_budget k this o σ :
  cached k → ¬ cached (class o) →
  budget k this (snd (new o σ)) = budget k this σ.
Proof.
  intros Hk Ho. unfold budget.
  rewrite constructions_new, this_new, decide_False; [lia|].
  intros [<- _]. done.
Qed.

Lemma perform_budget k this c σ :
  cached k → budget k this (snd (perform c σ)) = budget k this σ.
Proof.
  intros Hk.
  assert (∀ k', k' ∈ [Item; UserDefinedFunction; Conflict; StoredProcedure; Trigger]
                → ¬ cached k') as Hfactory.
  { intros k'. unfold cached. rewrite !elem_of_cons, !elem_of_nil.
    intros [->|[->|[->|[->|[->|[]]]]]]; intuition discriminate. }
  destruct c; cbn [perform prod_map fst snd];
    rewrite ?items_lazily, ?storedProcedures_lazily, ?triggers_lazily,
      ?userDefinedFunctions_lazily, ?conflicts_lazily;
    try (apply lazily_budget; unfold cached; rewrite !elem_of_cons; tauto);
    apply factory_budget; try done; apply Hfactory; cbn [class];
    rewrite !elem_of_cons; tauto.
Qed.

Lemma performAll_budget k this cs σ :
  cached k → budget k this (performAll cs σ) = budget k this σ.
Proof.
  intros Hk. revert σ. unfold performAll.
  induction cs as [|c cs IH]; intros σ; cbn [foldl]; [done|].
  by rewrite IH, perform_budget.
Qed.

(** Once set, a cache field keeps its value. *)
Lemma lazily_keeps k k' this that σ o :
  cacheOf k (this_ this σ) = Some o →
  cacheOf k (this_ this (snd (lazily k' that σ))) = Some o.
Proof.
  intros Hset.
  destruct (cacheOf k' (this_ that σ)) as [o'|] eqn:Hcache.
  { by rewrite (lazily_hit _ _ _ o'). }
  rewrite lazily_miss by done. cbn [snd].
  destruct (decide (that = this)) as [->|Hthat].
  - rewrite this_update_eq, this_new.
    destruct (decide (k' = k)) as [->|Hk]; [congruence|].
    by rewrite cacheOf_setCache_ne.
  - by rewrite this_update_ne, this_new.
Qed.

Lemma perform_keeps k this c σ o :
  cacheOf k (this_ this σ) = Some o →
  cacheOf k (this_ this (snd (perform c σ))) = Some o.
Proof.
  intros Hset.
  destruct c; cbn [perform prod_map fst snd];
    rewrite ?items_lazily, ?storedProcedures_lazily, ?triggers_lazily,
      ?userDefinedFunctions_lazily, ?conflicts_lazily;
    try (by apply lazily_keeps); done.
Qed.

Lemma performAll_keeps k this cs σ o :
  cacheOf k (this_ this σ) = Some o →
  cacheOf k (this_ this (performAll cs σ)) = Some o.
Proof.
  revert σ. unfold performAll.
  induction cs as [|c cs IH]; intros σ Hset; cbn [foldl]; [done|].
  by apply IH, perform_keeps.
Qed.

(** A read through an accessor: the object it yields is in the cache
    afterwards, and a read with the cache set changes nothing. *)
Lemma lazily_read k this σ :
  cached k →
  ∃ o, fst (lazily k this σ) = Some o
       ∧ cacheOf k (this_ this (snd (lazily k this σ))) = Some o.
Proof.
  intros Hk.
  destruct (cacheOf k (this_ this σ)) as [o|] eqn:Hcache.
  { rewrite (lazily_hit _ _ _ o) by done. eauto. }
  rewrite lazily_miss by done. cbn [fst snd].
  rewrite this_update_eq, cacheOf_setCache_eq by done. eauto.
Qed.

(** For each cached accessor: whatever calls come between two reads of
    it, the second read yields the object of the first and leaves the
    store as it finds it; and over any run of calls at most one object
    of the accessor's class is constructed for the container. *)
Lemma lazily_idempotent k this σ cs :
  cached k →
  let first := lazily k this σ in
  let again := lazily k this (performAll cs (snd first)) in
  is_Some (fst first)
  ∧ fst again = fst first
  ∧ snd again = performAll cs (snd first).
Proof.
  intros Hk first again. subst first again.
  destruct (lazily_read k this σ Hk) as (o & Hfirst & Hcache).
  rewrite Hfirst.
  rewrite (lazily_hit k this _ o) by by apply performAll_keeps.
  eauto.
Qed.

Lemma constructed_at_most_once k this σ cs :
  cached k →
  (constructions k this (performAll cs σ) ≤ S (constructions k this σ))%nat.
Proof.
  intros Hk. pose proof (performAll_budget k this cs σ Hk) as Hb.
  unfold budget in Hb. repeat case_match; lia.
Qed.

(** C10: [items], [storedProcedures] and [conflicts] are idempotent.
    Whatever calls are made on whatever containers between two reads of
    one accessor of a container, the second read returns the very object
    the first one returned and constructs nothing; and over any run of
    calls, reads included, at most one object of each of the three
    classes is constructed for the container. *)
Theorem container_accessors_idempotent (this : loc) (σ : Store) (cs : list Call) :
  (let first := items this σ in
   let again := items this (performAll cs (snd first)) in
   is_Some (fst first) ∧ fst again = fst first
   ∧ snd again = performAll cs (snd first))
  ∧ (let first := storedProcedures this σ in
     let again := storedProcedures this (performAll cs (snd first)) in
     is_Some (fst first) ∧ fst again = fst first
     ∧ snd again = performAll cs (snd first))
  ∧ (let first := conflicts this σ in
     let again := conflicts this (performAll cs (snd first)) in
     is_Some (fst first) ∧ fst again = fst first
     ∧ snd again = performAll cs (snd first))
  ∧ (constructions Items this (performAll cs σ)
     ≤ S (constructions Items this σ))%nat
  ∧ (constructions StoredProcedures this (performAll cs σ)
     ≤ S (constructions StoredProcedures this σ))%nat
  ∧ (constructions Conflicts this (performAll cs σ)
     ≤ S (constructions Conflicts this σ))%nat.
Proof.
  rewrite items_lazily, storedProcedures_lazily, conflicts_lazily.
  split_and!;
    first [apply lazily_idempotent | apply constructed_at_most_once];
    unfold cached; rewrite !elem_of_cons; tauto.
Qed.

(** A new container read twice: one [Items] object, seen both times. *)
Example items_read_twice :
  let '(this, σ) := newContainer 7%nat "c" 9%nat (mkStore ∅ []) in
  let '(first, σ1) := items this σ in
  let '(again, σ2) := items this σ1 in
  first = Some 0%nat ∧ again = Some 0%nat
  ∧ constructions Items this σ = 0%nat
  ∧ constructions Items this σ2 = 1%nat.
Proof. by vm_compute. Qed.

End ResourcesProperties.

(* ===================================================================== *)
(** ** Further properties of [getHeaders] *)
(* ===================================================================== *)

(** As [frame], with the difference of two header names left to [tac]. *)
Ltac frameBy tac :=
  lazymatch goal with
  | |- ∀ _, _ => intros ?; frameBy tac
  | |- preserves _ (when _ _) => apply when_preserves; frameBy tac
  | |- preserves _ (whenTruthy _ _) => apply whenTruthy_preserves; frameBy tac
  | |- preserves _ (whenDefined _ _) => apply whenDefined_preserves; frameBy tac
  | |- preserves _ (if _ then _ else _) => apply branch_preserves; frameBy tac
  | |- preserves _ (λ σ, when _ _ σ) => apply whenState_preserves; frameBy tac
  | |- preserves (readHeader _ _) (assign _ _ _) =>
      apply assign_preserves_header; tac
  | |- preserves _ _ => progress cbv zeta; frameBy tac
  end.

Ltac overBy tac :=
  first [ apply over_when; [frameBy tac|]
        | apply over_whenTruthy; [frameBy tac|]
        | apply over_whenDefined; [frameBy tac|] ].

Lemma assign_keepsHeader obj k h k' v : keepsHeader obj k (assign h k' v).
Proof.
  intros σ Hk. unfold readHeader, assign in *. cbn.
  destruct (decide (h = obj)) as [->|Hne].
  - rewrite lookup_total_insert_eq.
    destruct (decide (k' = k)) as [->|Hk'].
    + rewrite lookup_insert_eq. eauto.
    + by rewrite lookup_insert_ne.
  - by rewrite lookup_total_insert_ne.
Qed.

Lemma when_keepsHeader obj k c step :
  keepsHeader obj k step → keepsHeader obj k (when c step).
Proof. intros H σ Hk. unfold when. destruct c; [by apply H|done]. Qed.

Lemma whenState_keepsHeader obj k (c : Heap → bool) step :
  keepsHeader obj k step → keepsHeader obj k (λ σ, when (c σ) step σ).
Proof. intros H σ Hk. unfold when. destruct (c σ); [by apply H|done]. Qed.

Lemma whenTruthy_keepsHeader {A} `{Truthy A} obj k (field : option A) step :
  (∀ a, keepsHeader obj k (step a)) → keepsHeader obj k (whenTruthy field step).
Proof.
  intros Hstep σ Hk. unfold whenTruthy. destruct field as [a|]; [|done].
  destruct (truthy a); [by apply Hstep|done].
Qed.

Lemma whenDefined_keepsHeader {A} obj k (field : option A) step :
  (∀ a, keepsHeader obj k (step a)) → keepsHeader obj k (whenDefined field step).
Proof.
  intros Hstep σ Hk. unfold whenDefined. destruct field; [by apply Hstep|done].
Qed.

Lemma branch_keepsHeader obj k (c : bool) (step1 step2 : Heap → Heap) :
  keepsHeader obj k step1 → keepsHeader obj k step2 →
  keepsHeader obj k (if c then step1 else step2).
Proof. by destruct c. Qed.

Lemma over_kept obj k step σ :
  keepsHeader obj k step → is_Some (readHeader obj k σ) →
  is_Some (readHeader obj k (step σ)).
Proof. intros H. apply H. Qed.

(** Shows that a step removes no header. *)
Ltac kept :=
  lazymatch goal with
  | |- ∀ _, _ => intros ?; kept
  | |- keepsHeader _ _ (when _ _) => apply when_keepsHeader; kept
  | |- keepsHeader _ _ (whenTruthy _ _) => apply whenTruthy_keepsHeader; kept
  | |- keepsHeader _ _ (whenDefined _ _) => apply whenDefined_keepsHeader; kept
  | |- keepsHeader _ _ (if _ then _ else _) => apply branch_keepsHeader; kept
  | |- keepsHeader _ _ (λ σ, when _ _ σ) => apply whenState_keepsHeader; kept
  | |- keepsHeader _ _ (assign _ _ _) => apply assign_keepsHeader
  | |- keepsHeader _ _ _ => progress cbv zeta; kept
  end.

Lemma whenTruthy_falsy {A} `{Truthy A} (field : option A) step σ :
  truthy field = false → whenTruthy field step σ = σ.
Proof.
  unfold whenTruthy. destruct field as [a|]; [|done].
  intros Hfalsy. change (truthy a = false) in Hfalsy. by rewrite Hfalsy.
Qed.

Lemma whenDefined_unset {A} (field : option A) step σ :
  isSet field = false → whenDefined field step σ = σ.
Proof. by destruct field. Qed.

Section GetHeadersFurther.

Context (env : Collaborators).

Local Abbreviation HttpHeaders := (Constants.HttpHeaders (constants env)).
Local Abbreviation MediaTypes_Json := (Constants.MediaTypes_Json (constants env)).

Context (authOptions : AuthOptions) (defaultHeaders : loc)
  (verb : HTTPMethod.t) (path resourceId : string)
  (resourceType : ResourceType) (options : option loc)
  (partitionKeyRangeId : option string)
  (useMultipleWriteLocations : option bool) (now : string) (σ : Heap).

Let assembled :=
  assembleHeaders env authOptions defaultHeaders verb options
    partitionKeyRangeId useMultipleWriteLocations now σ.

Let out :=
  getHeaders env authOptions defaultHeaders verb path resourceId
    resourceType options partitionKeyRangeId useMultipleWriteLocations
    now σ.

Let opts := readOptions options σ.

(** The headers a returning call hands back, read off what
    [assembleHeaders] left, for any name but the authorization header's. *)
Lemma returned_header k headers :
  signsOnly env → k ≠ HttpHeaders Authorization →
  fst out = inr headers →
  headers = fst assembled
  ∧ readHeader headers k (snd out) = readHeader headers k (snd assembled).
Proof.
  intros Hsigns Hk Hout.
  destruct (getHeaders_returns env authOptions defaultHeaders verb path
              resourceId resourceType options partitionKeyRangeId
              useMultipleWriteLocations now σ) as (_ & _ & Hret).
  destruct (Hret headers Hout) as (-> & _ & Hread).
  split; [done|]. by apply Hread.
Qed.

(** X1: [getHeaders] writes under the header names of the constants table
    only.  Whatever else the default headers hold is handed back as it
    is. *)
Theorem getHeaders_writes_known_names k headers :
  signsOnly env →
  (∀ n, HttpHeaders n ≠ k) →
  fst out = inr headers →
  readHeader headers k (snd out) = readHeader defaultHeaders k σ.
Proof.
  intros Hsigns Hk Hout.
  destruct (returned_header k headers) as [-> ->]; [done|by apply not_eq_sym|done|].
  subst assembled. unfold assembleHeaders, spread.
  cbv beta iota zeta. cbn [fst snd].
  repeat overBy ltac:(by apply Hk).
  unfold readHeader. cbn. by rewrite lookup_total_insert_eq.
Qed.

(** X2: [getHeaders] drops no default header: a name the default headers
    hold is held by the returned headers too, the authorization header
    being the signer's business. *)
Theorem getHeaders_keeps_default_headers k headers :
  signsOnly env →
  k ≠ HttpHeaders Authorization →
  is_Some (readHeader defaultHeaders k σ) →
  fst out = inr headers →
  is_Some (readHeader headers k (snd out)).
Proof.
  intros Hsigns Hk Hdefault Hout.
  destruct (returned_header k headers) as [-> ->]; [done..|].
  subst assembled. unfold assembleHeaders, spread.
  cbv beta iota zeta. cbn [fst snd].
  repeat (apply over_kept; [kept|]).
  unfold readHeader in *. cbn. by rewrite lookup_total_insert_eq.
Qed.

(** X3: an option bag whose fields are all falsy is an empty option bag
    to [getHeaders]: zero, the empty string and [false] emit nothing. *)
Theorem getHeaders_falsy_options :
  falsyOptions opts = true →
  out = getHeaders env authOptions defaultHeaders verb path resourceId
          resourceType None partitionKeyRangeId useMultipleWriteLocations
          now σ.
Proof.
  intros Hfalsy. subst out opts. unfold getHeaders.
  assert (assembleHeaders env authOptions defaultHeaders verb options
            partitionKeyRangeId useMultipleWriteLocations now σ
          = assembleHeaders env authOptions defaultHeaders verb None
              partitionKeyRangeId useMultipleWriteLocations now σ) as ->;
    [|done].
  assert (falsyOptions noOptions = true) as Hempty by reflexivity.
  unfold falsyOptions in Hfalsy, Hempty.
  repeat match goal with
         | H : _ && _ = true |- _ => apply andb_true_iff in H as [H ?]
         end.
  repeat match goal with
         | H : negb _ = true |- _ => apply negb_true_iff in H
         end.
  unfold assembleHeaders, spread. cbv beta iota zeta.
  change (readOptions options
            {| headerObjects :=
                 <[fresh (dom (headerObjects σ)) :=
                     headerObjects σ !!! defaultHeaders]> (headerObjects σ);
               optionObjects := optionObjects σ |})
    with (readOptions options σ).
  change (readOptions None
            {| headerObjects :=
                 <[fresh (dom (headerObjects σ)) :=
                     headerObjects σ !!! defaultHeaders]> (headerObjects σ);
               optionObjects := optionObjects σ |})
    with noOptions.
  repeat match goal with
         | H : truthy ?f = false |- context [whenTruthy ?f ?s ?st] =>
             rewrite (whenTruthy_falsy f s st H)
         | H : isSet ?f = false |- context [whenDefined ?f ?s ?st] =>
             rewrite (whenDefined_unset f s st H)
         | H : ?c = false |- context [when ?c] => rewrite H
         end.
  reflexivity.
Qed.

Section Mapping.

Hypothesis Hdistinct : Constants.distinct (constants env).

Let headers := fst assembled.

Lemma assembled_default (n : HttpHeaderName) σ0 :
  readHeader (fresh (dom (headerObjects σ0))) (HttpHeaders n)
    {| headerObjects :=
         <[fresh (dom (headerObjects σ0)) := headerObjects σ0 !!! defaultHeaders]>
           (headerObjects σ0);
       optionObjects := optionObjects σ0 |}
  = readHeader defaultHeaders (HttpHeaders n) σ0.
Proof. unfold readHeader. cbn. by rewrite lookup_total_insert_eq. Qed.

Lemma assembled_IfMatch :
  readHeader headers (HttpHeaders IfMatch) (snd assembled)
  = match accessCondition opts with
    | Some ac =>
        if String.eqb (type ac) "IfMatch" then Some (HStr (condition ac))
        else readHeader defaultHeaders (HttpHeaders IfMatch) σ
    | None => readHeader defaultHeaders (HttpHeaders IfMatch) σ
    end.
Proof.
  subst headers assembled opts. unfold assembleHeaders, spread.
  cbv beta iota zeta. cbn [fst snd]. repeat over.
  unfold whenDefined at 1.
  match goal with
  | |- context [accessCondition ?o] => change o with (readOptions options σ)
  end.
  destruct (accessCondition (readOptions options σ)) as [ac|];
    [destruct (String.eqb (type ac) "IfMatch")|].
  - apply readHeader_assign.
  - rewrite assign_preserves_header
      by (intros Heq; apply Hdistinct in Heq; discriminate Heq).
    repeat over. apply assembled_default.
  - repeat over. apply assembled_default.
Qed.

Lemma assembled_IfNoneMatch :
  readHeader headers (HttpHeaders IfNoneMatch) (snd assembled)
  = match accessCondition opts with
    | Some ac =>
        if String.eqb (type ac) "IfMatch"
        then readHeader defaultHeaders (HttpHeaders IfNoneMatch) σ
        else Some (HStr (condition ac))
    | None => readHeader defaultHeaders (HttpHeaders IfNoneMatch) σ
    end.
Proof.
  subst headers assembled opts. unfold assembleHeaders, spread.
  cbv beta iota zeta. cbn [fst snd]. repeat over.
  unfold whenDefined at 1.
  match goal with
  | |- context [accessCondition ?o] => change o with (readOptions options σ)
  end.
  destruct (accessCondition (readOptions options σ)) as [ac|];
    [destruct (String.eqb (type ac) "IfMatch")|].
  - rewrite assign_preserves_header
      by (intros Heq; apply Hdistinct in Heq; discriminate Heq).
    repeat over. apply assembled_default.
  - apply readHeader_assign.
  - repeat over. apply assembled_default.
Qed.

Lemma assembled_trigger (n : HttpHeaderName) (field : Options → option StringOrArray) :
  (n = PreTriggerInclude ∧ field = preTriggerInclude)
  ∨ (n = PostTriggerInclude ∧ field = postTriggerInclude) →
  readHeader headers (HttpHeaders n) (snd assembled)
  = match field opts with
    | Some (Many ss) => Some (HStr (join "," ss))
    | Some (One s) =>
        if truthy s then Some (HStr s)
        else readHeader defaultHeaders (HttpHeaders n) σ
    | None => readHeader defaultHeaders (HttpHeaders n) σ
    end.
Proof.
  intros [[-> ->]|[-> ->]].
  all: subst headers assembled opts; unfold assembleHeaders, spread.
  all: cbv beta iota zeta; cbn [fst snd]; repeat over.
  all: unfold whenTruthy at 1.
  all: match goal with
       | |- context [preTriggerInclude ?o] => change o with (readOptions options σ)
       | |- context [postTriggerInclude ?o] => change o with (readOptions options σ)
       end.
  - destruct (preTriggerInclude (readOptions options σ)) as [[s|ss]|].
    + change (truthy (One s)) with (truthy s). destruct (truthy s).
      * apply readHeader_assign.
      * repeat over. apply assembled_default.
    + apply readHeader_assign.
    + repeat over. apply assembled_default.
  - destruct (postTriggerInclude (readOptions options σ)) as [[s|ss]|].
    + change (truthy (One s)) with (truthy s). destruct (truthy s).
      * apply readHeader_assign.
      * repeat over. apply assembled_default.
    + apply readHeader_assign.
    + repeat over. apply assembled_default.
Qed.

Lemma assembled_Parallelize :
  readHeader headers (HttpHeaders ParallelizeCrossPartitionQuery) (snd assembled)
  = if isSet (maxDegreeOfParallelism opts) then Some (HBool true)
    else readHeader defaultHeaders (HttpHeaders ParallelizeCrossPartitionQuery) σ.
Proof.
  subst headers assembled opts. unfold assembleHeaders, spread.
  cbv beta iota zeta. cbn [fst snd]. repeat over.
  unfold when at 1.
  match goal with
  | |- context [maxDegreeOfParallelism ?o] => change o with (readOptions options σ)
  end.
  destruct (isSet (maxDegreeOfParallelism (readOptions options σ))).
  - apply readHeader_assign.
  - repeat over. apply assembled_default.
Qed.

Lemma assembled_PartitionKeyRangeID :
  readHeader headers (HttpHeaders PartitionKeyRangeID) (snd assembled)
  = match partitionKeyRangeId with
    | Some range => Some (HStr range)
    | None => readHeader defaultHeaders (HttpHeaders PartitionKeyRangeID) σ
    end.
Proof.
  subst headers assembled. unfold assembleHeaders, spread.
  cbv beta iota zeta. cbn [fst snd]. repeat over.
  unfold whenDefined at 1. destruct partitionKeyRangeId.
  - apply readHeader_assign.
  - repeat over. apply assembled_default.
Qed.

Lemma assembled_Authorization :
  readHeader headers (HttpHeaders Authorization) (snd assembled)
  = readHeader defaultHeaders (HttpHeaders Authorization) σ.
Proof.
  subst headers assembled. unfold assembleHeaders, spread.
  cbv beta iota zeta. cbn [fst snd]. repeat over. apply assembled_default.
Qed.

(** X4: an access condition of type ["IfMatch"] goes into the [If-Match]
    header; one of any other type, whatever it is, goes into
    [If-None-Match].  The header not chosen, and both when there is no
    access condition, stay as the default headers have them. *)
Theorem getHeaders_access_condition returned :
  signsOnly env →
  fst out = inr returned →
  let ifMatch := readHeader returned (HttpHeaders IfMatch) (snd out) in
  let ifNoneMatch := readHeader returned (HttpHeaders IfNoneMatch) (snd out) in
  (∀ ac, accessCondition opts = Some ac → type ac = "IfMatch" →
     ifMatch = Some (HStr (condition ac))
     ∧ ifNoneMatch = readHeader defaultHeaders (HttpHeaders IfNoneMatch) σ)
  ∧ (∀ ac, accessCondition opts = Some ac → type ac ≠ "IfMatch" →
       ifNoneMatch = Some (HStr (condition ac))
       ∧ ifMatch = readHeader defaultHeaders (HttpHeaders IfMatch) σ)
  ∧ (accessCondition opts = None →
       ifMatch = readHeader defaultHeaders (HttpHeaders IfMatch) σ
       ∧ ifNoneMatch = readHeader defaultHeaders (HttpHeaders IfNoneMatch) σ).
Proof.
  intros Hsigns Hout ifMatch ifNoneMatch. subst ifMatch ifNoneMatch.
  destruct (returned_header (HttpHeaders IfMatch) returned) as [-> ->];
    [done|by intros ?%Hdistinct|done|].
  destruct (returned_header (HttpHeaders IfNoneMatch) (fst assembled))
    as [_ ->]; [done|by intros ?%Hdistinct|done|].
  fold headers. rewrite assembled_IfMatch, assembled_IfNoneMatch.
  split_and!.
  - intros ac -> ->. by rewrite String.eqb_refl.
  - intros ac -> Hty. apply String.eqb_neq in Hty. by rewrite Hty.
  - by intros ->.
Qed.

(** X5: a trigger list given as an array is sent joined by commas, an empty
    array as an empty header; given as a string it is sent as it is, and
    an empty string sends nothing. *)
Theorem getHeaders_trigger_include returned :
  signsOnly env →
  fst out = inr returned →
  let pre := readHeader returned (HttpHeaders PreTriggerInclude) (snd out) in
  let post := readHeader returned (HttpHeaders PostTriggerInclude) (snd out) in
  (∀ ss, preTriggerInclude opts = Some (Many ss) → pre = Some (HStr (join "," ss)))
  ∧ (∀ s, preTriggerInclude opts = Some (One s) → s ≠ "" → pre = Some (HStr s))
  ∧ (preTriggerInclude opts = Some (One "") ∨ preTriggerInclude opts = None →
       pre = readHeader defaultHeaders (HttpHeaders PreTriggerInclude) σ)
  ∧ (∀ ss, postTriggerInclude opts = Some (Many ss) → post = Some (HStr (join "," ss)))
  ∧ (∀ s, postTriggerInclude opts = Some (One s) → s ≠ "" → post = Some (HStr s))
  ∧ (postTriggerInclude opts = Some (One "") ∨ postTriggerInclude opts = None →
       post = readHeader defaultHeaders (HttpHeaders PostTriggerInclude) σ).
Proof.
  intros Hsigns Hout pre post. subst pre post.
  destruct (returned_header (HttpHeaders PreTriggerInclude) returned) as [-> ->];
    [done|by intros ?%Hdistinct|done|].
  destruct (returned_header (HttpHeaders PostTriggerInclude) (fst assembled))
    as [_ ->]; [done|by intros ?%Hdistinct|done|].
  fold headers.
  rewrite (assembled_trigger PreTriggerInclude preTriggerInclude) by auto.
  rewrite (assembled_trigger PostTriggerInclude postTriggerInclude) by auto.
  split_and!.
  - by intros ss ->.
  - intros s -> Hs. by destruct s.
  - by intros [-> | ->].
  - by intros ss ->.
  - intros s -> Hs. by destruct s.
  - by intros [-> | ->].
Qed.

(** X6: a partition key that is an array is serialised as it is; any other
    value, [null] included, is wrapped into a one-element array first. *)
Theorem getHeaders_partition_key_wrapping returned pk :
  signsOnly env →
  fst out = inr returned →
  partitionKey opts = Some pk →
  readHeader returned (HttpHeaders PartitionKey) (snd out)
  = Some (HStr (jsonStringifyAndEscapeNonASCII env
                  (if isArray pk then pk else JArr [pk]))).
Proof.
  intros Hsigns Hout Hpk.
  destruct (returned_header (HttpHeaders PartitionKey) returned) as [-> ->];
    [done|by intros ?%Hdistinct|done|].
  subst assembled. rewrite assembled_PartitionKey by done.
  fold opts. rewrite Hpk. by destruct pk.
Qed.

(** X7: [maxDegreeOfParallelism] and [partitionKeyRangeId] are tested for
    presence, not for truth: a degree of zero still asks for a parallel
    query, an empty range id is still sent. *)
Theorem getHeaders_presence_tested returned :
  signsOnly env →
  fst out = inr returned →
  (∀ degree, maxDegreeOfParallelism opts = Some degree →
     readHeader returned (HttpHeaders ParallelizeCrossPartitionQuery) (snd out)
     = Some (HBool true))
  ∧ (∀ range, partitionKeyRangeId = Some range →
       readHeader returned (HttpHeaders PartitionKeyRangeID) (snd out)
       = Some (HStr range)).
Proof.
  intros Hsigns Hout.
  destruct (returned_header (HttpHeaders ParallelizeCrossPartitionQuery) returned)
    as [-> ->]; [done|by intros ?%Hdistinct|done|].
  destruct (returned_header (HttpHeaders PartitionKeyRangeID) (fst assembled))
    as [_ ->]; [done|by intros ?%Hdistinct|done|].
  fold headers. rewrite assembled_Parallelize, assembled_PartitionKeyRangeID.
  split.
  - by intros degree ->.
  - by intros range ->.
Qed.

(** X8: with no credential configured [getHeaders] cannot fail: the signer
    is not run, and the headers returned carry the authorization and
    timestamp headers of the default headers, if any, and none of their
    own. *)
Theorem getHeaders_without_credentials :
  needsAuthorization authOptions = false →
  ∃ returned,
    fst out = inr returned
    ∧ readHeader returned (HttpHeaders Authorization) (snd out)
      = readHeader defaultHeaders (HttpHeaders Authorization) σ
    ∧ readHeader returned (HttpHeaders XDate) (snd out)
      = readHeader defaultHeaders (HttpHeaders XDate) σ.
Proof.
  intros Hnone. exists headers.
  assert (out = (inr headers, snd assembled)) as ->.
  { subst out headers assembled. unfold getHeaders. rewrite Hnone.
    by destruct (assembleHeaders _ _ _ _ _ _ _ _ _). }
  cbn [fst snd]. split_and!; [done|apply assembled_Authorization|].
  subst headers assembled. rewrite assembled_XDate by done.
  unfold needsAuthorization in Hnone.
  repeat match type of Hnone with
         | _ || _ = false => apply orb_false_iff in Hnone as [Hnone ?]
         end.
  by repeat match goal with H : _ = false |- _ => rewrite H; clear H end.
Qed.

End Mapping.

End GetHeadersFurther.

(** *** The further properties of [getHeaders] on sample inputs *)

(** X1 at a default header outside the table. *)
Lemma getHeaders_writes_known_names_witness :
  signsOnly Sample.collaborators
  ∧ (∀ n, Sample.HttpHeaders n ≠ "x-custom-tag")
  ∧ fst (Cases.headersFor HTTPMethod.post Cases.defaults Sample.keyedOptions None)
    = inr 1%nat
  ∧ readHeader 1%nat "x-custom-tag"
      (snd (Cases.headersFor HTTPMethod.post Cases.defaults Sample.keyedOptions
              None))
    = Some (HStr "blue").
Proof.
  assert (∀ n, Sample.HttpHeaders n ≠ "x-custom-tag") as Hout
    by (intros []; discriminate).
  split; [exact SampleProperties.signer_signs_only|].
  split; [exact Hout|]. split; [reflexivity|].
  exact (getHeaders_writes_known_names Sample.collaborators Sample.masterKeyAuth
           0%nat HTTPMethod.post "/dbs/db/colls/c" "dbs/db/colls/c" "docs"
           (Some 0%nat) None None Sample.now
           (Sample.callerHeap Cases.defaults Sample.keyedOptions)
           "x-custom-tag" 1%nat SampleProperties.signer_signs_only Hout eq_refl).
Defined.

(** X2 at a default session token. *)
Lemma getHeaders_keeps_default_headers_witness :
  signsOnly Sample.collaborators
  ∧ Sample.HttpHeaders SessionToken ≠ Sample.HttpHeaders Authorization
  ∧ is_Some (readHeader 0%nat (Sample.HttpHeaders SessionToken)
               (Sample.callerHeap Cases.defaults Cases.conditional))
  ∧ fst (Cases.headersFor HTTPMethod.get Cases.defaults Cases.conditional None)
    = inr 1%nat
  ∧ is_Some (readHeader 1%nat (Sample.HttpHeaders SessionToken)
               (snd (Cases.headersFor HTTPMethod.get Cases.defaults
                       Cases.conditional None))).
Proof.
  assert (Sample.HttpHeaders SessionToken ≠ Sample.HttpHeaders Authorization)
    as Hne by discriminate.
  assert (is_Some (readHeader 0%nat (Sample.HttpHeaders SessionToken)
                     (Sample.callerHeap Cases.defaults Cases.conditional)))
    as Hdefault by (by eexists).
  split; [exact SampleProperties.signer_signs_only|].
  split; [exact Hne|]. split; [exact Hdefault|]. split; [reflexivity|].
  exact (getHeaders_keeps_default_headers Sample.collaborators
           Sample.masterKeyAuth 0%nat HTTPMethod.get "/dbs/db/colls/c"
           "dbs/db/colls/c" "docs" (Some 0%nat) None None Sample.now
           (Sample.callerHeap Cases.defaults Cases.conditional)
           (Sample.HttpHeaders SessionToken) 1%nat
           SampleProperties.signer_signs_only Hne Hdefault eq_refl).
Defined.

(** X3 at an option bag of empty strings, zeros and [false]. *)
Lemma getHeaders_falsy_options_witness :
  falsyOptions (readOptions (Some 0%nat) (Sample.callerHeap ∅ Cases.falsy)) = true
  ∧ Cases.headersFor HTTPMethod.put ∅ Cases.falsy None
    = getHeaders Sample.collaborators Sample.masterKeyAuth 0%nat HTTPMethod.put
        "/dbs/db/colls/c" "dbs/db/colls/c" "docs" None None None Sample.now
        (Sample.callerHeap ∅ Cases.falsy).
Proof.
  split; [reflexivity|].
  exact (getHeaders_falsy_options Sample.collaborators Sample.masterKeyAuth
           0%nat HTTPMethod.put "/dbs/db/colls/c" "dbs/db/colls/c" "docs"
           (Some 0%nat) None None Sample.now
           (Sample.callerHeap ∅ Cases.falsy) eq_refl).
Defined.

(** X4 at an [IfMatch] condition. *)
Lemma getHeaders_access_condition_witness :
  Constants.distinct Sample.constants
  ∧ signsOnly Sample.collaborators
  ∧ fst (Cases.headersFor HTTPMethod.put ∅ Cases.conditional None) = inr 1%nat
  ∧ accessCondition (readOptions (Some 0%nat)
                       (Sample.callerHeap ∅ Cases.conditional))
    = Some (mkAccessCondition "IfMatch" "etag-1")
  ∧ readHeader 1%nat (Sample.HttpHeaders IfMatch)
      (snd (Cases.headersFor HTTPMethod.put ∅ Cases.conditional None))
    = Some (HStr "etag-1")
  ∧ readHeader 1%nat (Sample.HttpHeaders IfNoneMatch)
      (snd (Cases.headersFor HTTPMethod.put ∅ Cases.conditional None))
    = None.
Proof.
  split; [exact SampleProperties.names_distinct|].
  split; [exact SampleProperties.signer_signs_only|].
  split; [reflexivity|]. split; [reflexivity|].
  exact (proj1 (getHeaders_access_condition Sample.collaborators
                  Sample.masterKeyAuth 0%nat HTTPMethod.put "/dbs/db/colls/c"
                  "dbs/db/colls/c" "docs" (Some 0%nat) None None Sample.now
                  (Sample.callerHeap ∅ Cases.conditional)
                  SampleProperties.names_distinct 1%nat
                  SampleProperties.signer_signs_only eq_refl)
           (mkAccessCondition "IfMatch" "etag-1") eq_refl eq_refl).
Defined.

(** X5 at an array of two triggers and at an empty array. *)
Lemma getHeaders_trigger_include_witness :
  Constants.distinct Sample.constants
  ∧ signsOnly Sample.collaborators
  ∧ fst (Cases.headersFor HTTPMethod.post ∅ Cases.conditional None) = inr 1%nat
  ∧ readHeader 1%nat (Sample.HttpHeaders PreTriggerInclude)
      (snd (Cases.headersFor HTTPMethod.post ∅ Cases.conditional None))
    = Some (HStr "validate,stamp")
  ∧ readHeader 1%nat (Sample.HttpHeaders PostTriggerInclude)
      (snd (Cases.headersFor HTTPMethod.post ∅ Cases.conditional None))
    = Some (HStr "").
Proof.
  split; [exact SampleProperties.names_distinct|].
  split; [exact SampleProperties.signer_signs_only|].
  split; [reflexivity|].
  pose proof (getHeaders_trigger_include Sample.collaborators
                Sample.masterKeyAuth 0%nat HTTPMethod.post "/dbs/db/colls/c"
                "dbs/db/colls/c" "docs" (Some 0%nat) None None Sample.now
                (Sample.callerHeap ∅ Cases.conditional)
                SampleProperties.names_distinct 1%nat
                SampleProperties.signer_signs_only eq_refl)
    as (Hpre & _ & _ & Hpost & _).
  split.
  - exact (Hpre ["validate"; "stamp"] eq_refl).
  - exact (Hpost [] eq_refl).
Defined.

(** X6 at a [null] partition key. *)
Lemma getHeaders_partition_key_wrapping_witness :
  Constants.distinct Sample.constants
  ∧ signsOnly Sample.collaborators
  ∧ fst (Cases.headersFor HTTPMethod.get ∅ Cases.conditional None) = inr 1%nat
  ∧ partitionKey (readOptions (Some 0%nat)
                    (Sample.callerHeap ∅ Cases.conditional))
    = Some JNull
  ∧ readHeader 1%nat (Sample.HttpHeaders PartitionKey)
      (snd (Cases.headersFor HTTPMethod.get ∅ Cases.conditional None))
    = Some (HStr "[null]").
Proof.
  split; [exact SampleProperties.names_distinct|].
  split; [exact SampleProperties.signer_signs_only|].
  split; [reflexivity|]. split; [reflexivity|].
  exact (getHeaders_partition_key_wrapping Sample.collaborators
           Sample.masterKeyAuth 0%nat HTTPMethod.get "/dbs/db/colls/c"
           "dbs/db/colls/c" "docs" (Some 0%nat) None None Sample.now
           (Sample.callerHeap ∅ Cases.conditional)
           SampleProperties.names_distinct 1%nat JNull
           SampleProperties.signer_signs_only eq_refl eq_refl).
Defined.

(** X7 at a degree of zero and an empty range id. *)
Lemma getHeaders_presence_tested_witness :
  Constants.distinct Sample.constants
  ∧ signsOnly Sample.collaborators
  ∧ fst (Cases.headersFor HTTPMethod.get ∅ Cases.conditional (Some ""))
    = inr 1%nat
  ∧ readHeader 1%nat (Sample.HttpHeaders ParallelizeCrossPartitionQuery)
      (snd (Cases.headersFor HTTPMethod.get ∅ Cases.conditional (Some "")))
    = Some (HBool true)
  ∧ readHeader 1%nat (Sample.HttpHeaders PartitionKeyRangeID)
      (snd (Cases.headersFor HTTPMethod.get ∅ Cases.conditional (Some "")))
    = Some (HStr "").
Proof.
  split; [exact SampleProperties.names_distinct|].
  split; [exact SampleProperties.signer_signs_only|].
  split; [reflexivity|].
  pose proof (getHeaders_presence_tested Sample.collaborators
                Sample.masterKeyAuth 0%nat HTTPMethod.get "/dbs/db/colls/c"
                "dbs/db/colls/c" "docs" (Some 0%nat) (Some "") None Sample.now
                (Sample.callerHeap ∅ Cases.conditional)
                SampleProperties.names_distinct 1%nat
                SampleProperties.signer_signs_only eq_refl)
    as (Hdegree & Hrange).
  split.
  - exact (Hdegree 0 eq_refl).
  - exact (Hrange "" eq_refl).
Defined.

(** X8 at a client without credentials. *)
Lemma getHeaders_without_credentials_witness :
  Constants.distinct Sample.constants
  ∧ needsAuthorization Sample.noAuth = false
  ∧ ∃ returned,
      fst (Sample.headersFor Sample.noAuth HTTPMethod.get ∅ noOptions)
        = inr returned
      ∧ readHeader returned (Sample.HttpHeaders Authorization)
          (snd (Sample.headersFor Sample.noAuth HTTPMethod.get ∅ noOptions))
        = readHeader 0%nat (Sample.HttpHeaders Authorization)
            (Sample.callerHeap ∅ noOptions)
      ∧ readHeader returned (Sample.HttpHeaders XDate)
          (snd (Sample.headersFor Sample.noAuth HTTPMethod.get ∅ noOptions))
        = readHeader 0%nat (Sample.HttpHeaders XDate)
            (Sample.callerHeap ∅ noOptions).
Proof.
  split; [exact SampleProperties.names_distinct|]. split; [reflexivity|].
  exact (getHeaders_without_credentials Sample.collaborators Sample.noAuth
           0%nat HTTPMethod.get "/dbs/db/colls/c" "dbs/db/colls/c" "docs"
           (Some 0%nat) None None Sample.now (Sample.callerHeap ∅ noOptions)
           SampleProperties.names_distinct eq_refl).
Defined.

(* ===================================================================== *)
(** ** Further properties of [request] *)
(* ===================================================================== *)

Section RequestFurther.

Context (consts : Constants.t).

(** X9: whatever the exchange, [request] calls the transport exactly once:
    at [href + path], with the method, headers and agent of the request
    options, with a signal that is aborted exactly when the caller's was
    from the start, and with a body only when the body given is truthy (an
    empty string is not sent). *)
Theorem request_calls_transport_once policy ro payload userSignal x :
  fetch_calls (snd (request consts policy ro payload userSignal x))
  = [Fetch.mkInit (href ro ++ path ro) (method ro) (headers ro) (agent ro)
       (match userSignal with Some s => aborted s | None => false end)
       (match payload with
        | Some text => if truthy text then Some text else None
        | None => None
        end)].
Proof.
  assert (fetch_calls (snd (request consts policy ro payload userSignal x))
          = fetch_calls
              (recordFetch
                 (Fetch.mkInit (href ro ++ path ro) (method ro) (headers ro)
                    (agent ro)
                    (match userSignal with Some s => aborted s | None => false end)
                    (if truthy payload then payload else None))
                 (mkWorld None false false false [] 0%nat))) as ->.
  { unfold request.
    destruct (settles x) as [e|r];
      [repeat case_match; cbn [snd clearTimeout fetch_calls]
      |rewrite classify_fetch_calls];
      rewrite deliverAll_fetch_calls; by destruct userSignal as [[[]]|]. }
  cbn. destruct payload as [text|]; [|done].
  change (truthy (Some text)) with (truthy text). by destruct (truthy text).
Qed.

(** X10: a call that resolves has seen a response with a status below 400;
    the envelope carries that status, the materialized headers, and as
    result [null] for 204 and 304 and the parsed body for every other
    status. *)
Theorem request_success_envelope policy ro payload userSignal x envelope :
  fst (request consts policy ro payload userSignal x) = Resolved envelope →
  ∃ r,
    settles x = inr r
    ∧ (Fetch.status r < 400)%Z
    ∧ statusCode envelope = Fetch.status r
    ∧ response_headers envelope = materialize (Fetch.entries r)
    ∧ (if (Fetch.status r =? 204)%Z || (Fetch.status r =? 304)%Z
       then result envelope = JNull
       else Fetch.json r = inr (result envelope)).
Proof.
  destruct x as [evs [e|r]].
  - destruct (request_rejected consts policy ro payload userSignal evs e)
      as (w & -> & _).
    intros Hout. by repeat case_match.
  - destruct (request_responded consts policy ro payload userSignal evs r)
      as (w & -> & _).
    unfold classify. intros Hout. exists r.
    destruct ((Fetch.status r =? 204)%Z || (Fetch.status r =? 304)%Z) eqn:Hst.
    + destruct (400 <=? Fetch.status r)%Z eqn:Hge; [done|].
      apply Z.leb_gt in Hge. cbn [fst] in Hout. injection Hout as <-.
      by split_and!.
    + destruct (Fetch.json r) as [e|v] eqn:Hjson; [done|].
      destruct (400 <=? Fetch.status r)%Z eqn:Hge; [done|].
      apply Z.leb_gt in Hge. cbn [fst] in Hout. injection Hout as <-.
      by split_and!.
Qed.

(** X11: a timer that is still pending when [request] is over can only be
    the work of the transport: the call to [fetch] failed, and not with an
    [AbortError] for a signal the caller aborted or for a timer that had
    expired. After a response, of whatever status, the timer is cleared. *)
Theorem request_pending_timer_blames_transport policy ro payload userSignal x :
  timeout (snd (request consts policy ro payload userSignal x)) = Some Pending →
  ∃ e,
    settles x = inl e
    ∧ ¬ (name e = "AbortError"
         ∧ (userAborted userSignal (whileFetching x) = true
            ∨ TimerExpires ∈ whileFetching x)).
Proof.
  intros Hpending. destruct x as [evs [e|r]].
  - exists e. split; [done|]. intros Habort.
    apply (request_timer_settled_elsewhere consts policy ro payload userSignal
             (mkExchange evs (inl e))); [|done].
    by intros e' [= <-].
  - exfalso.
    apply (request_timer_settled_elsewhere consts policy ro payload userSignal
             (mkExchange evs (inr r))); [|done].
    by intros e [=].
Qed.

(** X12: a transport failure that is not an abort is raised as it is,
    whatever the caller's signal and whatever happened meanwhile, a timer
    that expired included. *)
Theorem request_passes_transport_errors policy ro payload userSignal evs e :
  name e ≠ "AbortError" →
  fst (request consts policy ro payload userSignal (mkExchange evs (inl e)))
  = Rejected (OfError e).
Proof.
  intros Hname.
  destruct (request_rejected consts policy ro payload userSignal evs e)
    as (w & -> & _).
  apply String.eqb_neq in Hname. by rewrite Hname.
Qed.

(** X13: the materialized headers hold a name exactly when some entry of
    the response has it, and of several entries with one name the last
    one's value. *)
Theorem materialize_names (es : list (string * string)) (k : string) :
  (is_Some (materialize es !! k) ↔ k ∈ es.*1)
  ∧ ∀ v, materialize (es ++ [(k, v)]) !! k = Some v.
Proof.
  split.
  - rewrite materialize_lookup.
    induction es as [|[k' v'] es IH] using rev_ind.
    + cbn. split; [by intros [? [=]]|by intros ?%elem_of_nil].
    + rewrite filter_app, fmap_app, elem_of_app, filter_cons, filter_nil.
      cbn [fst fmap list_fmap]. destruct (decide (k' = k)) as [->|Hne].
      * rewrite last_snoc. split; [|by eauto]. intros _. right. by left.
      * rewrite app_nil_r, IH. split; [by left|].
        intros [Hin|Hin]; [done|].
        apply list_elem_of_singleton in Hin. by subst.
  - intros v. rewrite materialize_lookup, filter_app, filter_cons, filter_nil.
    cbn [fst]. rewrite decide_True by done. by rewrite last_snoc.
Qed.

End RequestFurther.

(** X10 at a 204. *)
Lemma request_success_envelope_witness :
  fst (Sample.attempt None (mkExchange [] (inr Sample.noContent)))
  = Resolved (mkResponse {[ "x-ms-activity-id" := "0f3d" ]} JNull 204)
  ∧ ∃ r,
      settles (mkExchange [] (inr Sample.noContent)) = inr r
      ∧ (Fetch.status r < 400)%Z
      ∧ 204 = Fetch.status r
      ∧ {[ "x-ms-activity-id" := "0f3d" ]} = materialize (Fetch.entries r)
      ∧ (if (Fetch.status r =? 204)%Z || (Fetch.status r =? 304)%Z
         then JNull = JNull
         else Fetch.json r = inr JNull).
Proof.
  assert (fst (Sample.attempt None (mkExchange [] (inr Sample.noContent)))
          = Resolved (mkResponse {[ "x-ms-activity-id" := "0f3d" ]} JNull 204))
    as Hout by (by vm_compute).
  split; [exact Hout|].
  exact (request_success_envelope Sample.constants Sample.policy
           Sample.requestOptions None None
           (mkExchange [] (inr Sample.noContent))
           (mkResponse {[ "x-ms-activity-id" := "0f3d" ]} JNull 204) Hout).
Defined.

(** X11 at a refused connection: the timer is left pending. *)
Lemma request_pending_timer_blames_transport_witness :
  timeout (snd (Sample.attempt None
                  (mkExchange [] (inl Sample.connectionRefused))))
  = Some Pending
  ∧ ∃ e,
      settles (mkExchange [] (inl Sample.connectionRefused)) = inl e
      ∧ ¬ (name e = "AbortError"
           ∧ (userAborted None
                (whileFetching
                   (mkExchange [] (inl Sample.connectionRefused)))
              = true
              ∨ TimerExpires
                ∈ whileFetching
                    (mkExchange [] (inl Sample.connectionRefused)))).
Proof.
  assert (timeout (snd (Sample.attempt None
                          (mkExchange [] (inl Sample.connectionRefused))))
          = Some Pending) as Hpending by (by vm_compute).
  split; [exact Hpending|].
  exact (request_pending_timer_blames_transport Sample.constants Sample.policy
           Sample.requestOptions None None
           (mkExchange [] (inl Sample.connectionRefused)) Hpending).
Defined.

(** X12 at a refused connection noticed after the timer expired and the
    caller aborted. *)
Lemma request_passes_transport_errors_witness :
  name Sample.connectionRefused ≠ "AbortError"
  ∧ fst (Sample.attempt (Some (mkAbortSignal false))
           (mkExchange [TimerExpires; UserAborts]
              (inl Sample.connectionRefused)))
    = Rejected (OfError Sample.connectionRefused).
Proof.
  assert (name Sample.connectionRefused ≠ "AbortError") as Hname by discriminate.
  split; [exact Hname|].
  exact (request_passes_transport_errors Sample.constants Sample.policy
           Sample.requestOptions None (Some (mkAbortSignal false))
           [TimerExpires; UserAborts] Sample.connectionRefused Hname).
Defined.

(* ===================================================================== *)
(** ** Properties of the request bodies *)
(* ===================================================================== *)

Module BodyProperties.
Import Body.

Section Replace.

Context (a b c : ascii) (by_ : string).

Local Abbreviation R := (replaceAll3 a b c by_).

Lemma replaceAll3_unfold x s1 :
  R (String x s1)
  = if matchesAt a b c x s1
    then by_ ++ R (match s1 with String _ (String _ rest) => rest | _ => "" end)
    else String x (R s1).
Proof. by destruct s1 as [|y [|z rest]]. Qed.

Lemma matchesAt_first u v w x s1 : x ≠ u → matchesAt u v w x s1 = false.
Proof.
  intros Hx. destruct s1 as [|y [|z rest]]; try done. cbn.
  apply Ascii.eqb_neq in Hx. by rewrite Hx.
Qed.

(** A byte the replacement does not start with is at the head of the
    output only if it is at the head of the input. *)
Lemma replaceAll3_head u s :
  (∀ p rest, by_ = String p rest → p ≠ u) → by_ ≠ "" →
  (∃ t, R s = String u t) → ∃ t, s = String u t.
Proof.
  intros Hhead Hby [t Ht]. destruct s as [|x s1]; [done|].
  rewrite replaceAll3_unfold in Ht.
  destruct (matchesAt a b c x s1).
  - destruct by_ as [|p rest]; [done|]. cbn in Ht. injection Ht as -> _.
    by destruct (Hhead u rest).
  - injection Ht as -> _. eauto.
Qed.

Lemma replaceAll3_head2 u v s :
  (∀ p rest, by_ = String p rest → p ≠ u ∧ p ≠ v) → by_ ≠ "" →
  (∃ t, R s = String u (String v t)) → ∃ t, s = String u (String v t).
Proof.
  intros Hhead Hby [t Ht]. destruct s as [|x s1]; [done|].
  rewrite replaceAll3_unfold in Ht.
  destruct (matchesAt a b c x s1).
  - destruct by_ as [|p rest]; [done|]. cbn in Ht. injection Ht as -> _.
    by destruct (Hhead u rest) as [? _].
  - injection Ht as -> Ht.
    destruct (replaceAll3_head v s1) as [t' ->]; eauto.
    intros p rest Hp. by destruct (Hhead p rest Hp).
Qed.

End Replace.

Lemma matchesAt_spec u v w x s1 :
  matchesAt u v w x s1 = true ↔ x = u ∧ ∃ t, s1 = String v (String w t).
Proof.
  destruct s1 as [|y [|z rest]]; cbn.
  - split; [done|]. by intros [_ [? [=]]].
  - split; [done|]. by intros [_ [? [=]]].
  - rewrite !andb_true_iff, !Ascii.eqb_eq. split.
    + intros [[-> ->] ->]. eauto.
    + intros [-> [t [= -> -> _]]]. done.
Qed.

Lemma occurs3_app_avoid u v w (pre t : string) :
  (∀ ch, ch ∈ String.list_ascii_of_string pre → ch ≠ u) →
  occurs3 u v w (pre ++ t) = occurs3 u v w t.
Proof.
  induction pre as [|p pre IH]; intros Havoid; [done|].
  change (String p pre ++ t) with (String p (pre ++ t)). cbn [occurs3].
  rewrite matchesAt_first, IH; [done| |].
  - intros ch Hch. apply Havoid. cbn. by right.
  - apply Havoid. cbn. by left.
Qed.

Lemma occurs3_tail u v w x s1 :
  occurs3 u v w (String x s1) = false →
  matchesAt u v w x s1 = false ∧ occurs3 u v w s1 = false.
Proof. cbn. by intros [? ?]%orb_false_iff. Qed.

Lemma occurs3_tail3 u v w s1 :
  occurs3 u v w s1 = false →
  occurs3 u v w (match s1 with String _ (String _ rest) => rest | _ => "" end)
  = false.
Proof.
  destruct s1 as [|y [|z rest]]; try done.
  intros [_ [_ H]%occurs3_tail]%occurs3_tail. done.
Qed.

(** Replacing the occurrences of [a b c] leaves no occurrence of [u v w]
    that the input did not have, and none of [a b c] itself, provided the
    replacement avoids the byte [u] and does not start with [v] or [w]. *)
Lemma replaceAll3_clean a b c by_ u v w (s : string) :
  (∀ ch, ch ∈ String.list_ascii_of_string by_ → ch ≠ u) →
  (∀ p rest, by_ = String p rest → p ≠ v ∧ p ≠ w) → by_ ≠ "" →
  (a = u ∧ b = v ∧ c = w) ∨ occurs3 u v w s = false →
  occurs3 u v w (replaceAll3 a b c by_ s) = false.
Proof.
  intros Havoid Hhead Hby.
  assert (∀ n s, (String.length s ≤ n)%nat →
            (a = u ∧ b = v ∧ c = w) ∨ occurs3 u v w s = false →
            occurs3 u v w (replaceAll3 a b c by_ s) = false) as Hind;
    [|by apply (Hind (String.length s))].
  clear s. induction n as [|n IH]; intros s Hlen Hs.
  { by destruct s; [|cbn in Hlen; lia]. }
  destruct s as [|x s1]; [done|]. cbn in Hlen.
  rewrite replaceAll3_unfold.
  destruct (matchesAt a b c x s1) eqn:Hmatch.
  - rewrite occurs3_app_avoid by done. apply IH.
    + destruct s1 as [|y [|z rest]]; cbn in *; lia.
    + destruct Hs as [Hsame|Hs]; [by left|]. right.
      apply occurs3_tail in Hs as [_ Hs]. by apply occurs3_tail3.
  - cbn [occurs3]. apply orb_false_iff. split.
    + destruct (matchesAt u v w x (replaceAll3 a b c by_ s1)) eqn:Hout; [|done].
      apply matchesAt_spec in Hout as [-> Hout].
      apply replaceAll3_head2 in Hout as [t ->]; [|done..].
      destruct Hs as [(-> & -> & ->)|Hs].
      * assert (matchesAt u v w u (String v (String w t)) = true) as Hyes
          by (apply matchesAt_spec; eauto).
        congruence.
      * apply occurs3_tail in Hs as [Hs _].
        assert (matchesAt u v w u (String v (String w t)) = true) as Hyes
          by (apply matchesAt_spec; eauto).
        congruence.
    + apply IH; [lia|].
      destruct Hs as [Hsame|Hs]; [by left|]. right.
      by apply occurs3_tail in Hs as [_ Hs].
Qed.

(** Text without the pattern is left as it is. *)
Lemma replaceAll3_absent a b c by_ (s : string) :
  occurs3 a b c s = false → replaceAll3 a b c by_ s = s.
Proof.
  assert (∀ n s, (String.length s ≤ n)%nat → occurs3 a b c s = false →
            replaceAll3 a b c by_ s = s) as Hind;
    [|by apply (Hind (String.length s))].
  clear s. induction n as [|n IH]; intros s Hlen Hs.
  { by destruct s; [|cbn in Hlen; lia]. }
  destruct s as [|x s1]; [done|]. cbn in Hlen.
  apply occurs3_tail in Hs as [Hmatch Hs].
  rewrite replaceAll3_unfold, Hmatch. f_equal. apply IH; [lia|done].
Qed.

Lemma escape_avoids (code : string) :
  code = escape2028 ∨ code = escape2029 →
  (∀ ch, ch ∈ String.list_ascii_of_string code → ch ≠ xE2)
  ∧ (∀ p rest, code = String p rest → p ≠ x80 ∧ p ≠ xA8)
  ∧ (∀ p rest, code = String p rest → p ≠ x80 ∧ p ≠ xA9)
  ∧ code ≠ "".
Proof.
  intros [-> | ->]; (split_and!; [|by intros p rest [= <- _]..|done]).
  all: intros ch Hch; cbn in Hch.
  all: repeat (apply elem_of_cons in Hch as [->|Hch]; [done|]).
  all: by apply elem_of_nil in Hch.
Qed.

(** X14: the text [javaScriptFriendlyJSONStringify] produces holds neither
    a line separator nor a paragraph separator, whatever the value holds. *)
Theorem javaScriptFriendlyJSONStringify_no_separators (s : Json) :
  occurs3 xE2 x80 xA8 (javaScriptFriendlyJSONStringify s) = false
  ∧ occurs3 xE2 x80 xA9 (javaScriptFriendlyJSONStringify s) = false.
Proof.
  destruct (escape_avoids escape2028) as (H1 & H2 & _ & H4); [by left|].
  destruct (escape_avoids escape2029) as (H5 & H6 & H7 & H8); [by right|].
  unfold javaScriptFriendlyJSONStringify. split.
  - apply replaceAll3_clean; [done..|]. right.
    apply replaceAll3_clean; [done..|]. by left.
  - apply replaceAll3_clean; [done..|]. by left.
Qed.

(** X15: a JSON text without either separator is returned as
    [JSON.stringify] made it. *)
Theorem javaScriptFriendlyJSONStringify_plain (s : Json) :
  occurs3 xE2 x80 xA8 (JSON_stringify s) = false →
  occurs3 xE2 x80 xA9 (JSON_stringify s) = false →
  javaScriptFriendlyJSONStringify s = JSON_stringify s.
Proof.
  intros H28 H29. unfold javaScriptFriendlyJSONStringify.
  rewrite (replaceAll3_absent xE2 x80 xA8) by done.
  by apply replaceAll3_absent.
Qed.

Lemma replaceAll3_nonempty a b c by_ (s : string) :
  by_ ≠ "" → s ≠ "" → replaceAll3 a b c by_ s ≠ "".
Proof.
  intros Hby Hs. destruct s as [|x s1]; [done|].
  rewrite replaceAll3_unfold. destruct (matchesAt a b c x s1); [|done].
  by destruct by_.
Qed.

Lemma javaScriptFriendlyJSONStringify_nonempty (data : Data) :
  typeof data = "object" → javaScriptFriendlyJSONStringify (toJSON data) ≠ "".
Proof.
  intros Hobject. unfold javaScriptFriendlyJSONStringify.
  do 2 (apply replaceAll3_nonempty; [done|]).
  by destruct data as [[]|].
Qed.

(** X16: [bodyFromData] turns whatever has type ["object"], [null] and a
    [Buffer] included, into a string that is not empty and holds no
    separator, and returns everything else, a string in particular, as
    it is. *)
Theorem bodyFromData_cases (data : Data) :
  (typeof data = "object" →
     ∃ text, bodyFromData data = Value (JStr text)
             ∧ text = javaScriptFriendlyJSONStringify (toJSON data)
             ∧ text ≠ ""
             ∧ occurs3 xE2 x80 xA8 text = false
             ∧ occurs3 xE2 x80 xA9 text = false)
  ∧ (typeof data ≠ "object" → bodyFromData data = data).
Proof.
  unfold bodyFromData. split.
  - intros Hobject. rewrite Hobject. eexists. split_and!; [done..| | |].
    + by apply javaScriptFriendlyJSONStringify_nonempty.
    + apply javaScriptFriendlyJSONStringify_no_separators.
    + apply javaScriptFriendlyJSONStringify_no_separators.
  - intros Hother. apply String.eqb_neq in Hother. by rewrite Hother.
Qed.

(** Truthy data gives a truthy body. *)
Lemma bodyFromData_truthy (data : Data) :
  truthy data = true → truthy (bodyFromData data) = true.
Proof.
  intros Hdata. destruct (String.eqb (typeof data) "object") eqn:Hty.
  - apply String.eqb_eq in Hty.
    destruct (proj1 (bodyFromData_cases data) Hty) as (text & -> & _ & Hne & _).
    by destruct text.
  - unfold bodyFromData. by rewrite Hty.
Qed.

(** A line separator in a string value comes out as its escape. *)
Example javaScriptFriendlyJSONStringify_separator :
  javaScriptFriendlyJSONStringify
    (JStr (String "a" (String xE2 (String x80 (String xA8 "b")))))
  = String dquote ("a" ++ escape2028 ++ "b" ++ String dquote "").
Proof. reflexivity. Qed.

End BodyProperties.

(** X15 at an object of plain text. *)
Lemma javaScriptFriendlyJSONStringify_plain_witness :
  Body.occurs3 Body.xE2 Body.x80 Body.xA8 (JSON_stringify Sample.notFoundBody)
    = false
  ∧ Body.occurs3 Body.xE2 Body.x80 Body.xA9 (JSON_stringify Sample.notFoundBody)
    = false
  ∧ Body.javaScriptFriendlyJSONStringify Sample.notFoundBody
    = JSON_stringify Sample.notFoundBody.
Proof.
  split; [reflexivity|]. split; [reflexivity|].
  exact (BodyProperties.javaScriptFriendlyJSONStringify_plain
           Sample.notFoundBody eq_refl eq_refl).
Defined.

(** X16 at a [Buffer] of two bytes and at a string. *)
Lemma bodyFromData_cases_witness :
  Body.typeof (Body.Buffer [104; 105]) = "object"
  ∧ (∃ text,
       Body.bodyFromData (Body.Buffer [104; 105]) = Body.Value (JStr text)
       ∧ text = Body.javaScriptFriendlyJSONStringify
                  (Body.toJSON (Body.Buffer [104; 105]))
       ∧ text ≠ ""
       ∧ Body.occurs3 Body.xE2 Body.x80 Body.xA8 text = false
       ∧ Body.occurs3 Body.xE2 Body.x80 Body.xA9 text = false)
  ∧ Body.typeof (Body.Value (JStr "hi")) ≠ "object"
  ∧ Body.bodyFromData (Body.Value (JStr "hi")) = Body.Value (JStr "hi").
Proof.
  assert (Body.typeof (Body.Value (JStr "hi")) ≠ "object") as Hstring
    by discriminate.
  split; [reflexivity|]. split.
  - exact (proj1 (BodyProperties.bodyFromData_cases (Body.Buffer [104; 105]))
             eq_refl).
  - split; [exact Hstring|].
    exact (proj2 (BodyProperties.bodyFromData_cases (Body.Value (JStr "hi")))
             Hstring).
Defined.

(* ===================================================================== *)
(** ** Properties of [RequestHandler] *)
(* ===================================================================== *)

Module HandlerProperties.
Import Body Handler.

Section WithCollaborators.

Context {Manager Outcome : Type}.
Context (execute : @ExecuteArgs Manager → Outcome) (parse : string → Url).

(** X17: [RequestHandler.request] always reaches [RetryUtility.execute];
    the result reporting unusable data is never returned, since truthy
    data always gives a truthy body.  Falsy data, an empty string
    included, is passed on as no body at all, truthy data as what
    [bodyFromData] makes of it. *)
Theorem request_reaches_execute globalEndpointManager policy requestAgent
    method hostname context data headers abortSignal :
  ∃ args,
    request execute parse globalEndpointManager policy requestAgent method
      hostname context data headers abortSignal
    = Executed (execute args)
    ∧ arg_body args = bodyFor data.
Proof.
  unfold request, bodyFor. destruct data as [d|]; [|eauto].
  destruct (truthy d) eqn:Hd; [|eauto].
  rewrite (BodyProperties.bodyFromData_truthy d Hd). cbn [negb]. eauto.
Qed.

(** X18: [get] and [delete] never send a body; [post] and [put] send what
    [bodyFromData] makes of theirs; each of the four uses its own verb. *)
Theorem verbs_and_bodies this urlString context body headers abortSignal :
  (∃ args, get execute parse this urlString context headers abortSignal
           = Executed (execute args)
           ∧ arg_body args = None
           ∧ method (node (arg_requestOptions args)) = HTTPMethod.get)
  ∧ (∃ args, delete execute parse this urlString context headers abortSignal
             = Executed (execute args)
             ∧ arg_body args = None
             ∧ method (node (arg_requestOptions args)) = HTTPMethod.delete)
  ∧ (∃ args, post execute parse this urlString context body headers abortSignal
             = Executed (execute args)
             ∧ arg_body args = bodyFor body
             ∧ method (node (arg_requestOptions args)) = HTTPMethod.post)
  ∧ (∃ args, put execute parse this urlString context body headers abortSignal
             = Executed (execute args)
             ∧ arg_body args = bodyFor body
             ∧ method (node (arg_requestOptions args)) = HTTPMethod.put).
Proof.
  split_and!; [by eexists|by eexists| |].
  - unfold post, request, bodyFor. destruct body as [d|]; [|by eexists].
    destruct (truthy d) eqn:Hd; [|by eexists].
    rewrite (BodyProperties.bodyFromData_truthy d Hd). by eexists.
  - unfold put, request, bodyFor. destruct body as [d|]; [|by eexists].
    destruct (truthy d) eqn:Hd; [|by eexists].
    rewrite (BodyProperties.bodyFromData_truthy d Hd). by eexists.
Qed.

End WithCollaborators.

End HandlerProperties.

(* ===================================================================== *)
(** ** Properties of [read] and [getPartitionKeyDefinition] *)
(* ===================================================================== *)

Module ContainerRequestsProperties.
Import ContainerRequests.

Section WithCollaborators.

Context (createDocumentCollectionUri : string → string → string)
  (getPathFromLink getIdFromLink : string → string)
  (answer : nat → Error + ReadResponse).

Local Abbreviation url := (url createDocumentCollectionUri).
Local Abbreviation read :=
  (read createDocumentCollectionUri getPathFromLink getIdFromLink answer).
Local Abbreviation getPartitionKeyDefinition :=
  (getPartitionKeyDefinition createDocumentCollectionUri getPathFromLink
     getIdFromLink answer).
Local Abbreviation cachedDefinition := (cachedDefinition createDocumentCollectionUri).

(** What a [read] does, by what the service answers. *)
Lemma read_cases this ctx :
  let sent :=
    (reads ctx ++ [(getPathFromLink (url this), getIdFromLink (url this))])%list
  in
  match answer (length (reads ctx)) with
  | inl thrown =>
      read this ctx
      = (inl thrown, mkClientContext (partitionKeyDefinitionCache ctx) sent)
  | inr response =>
      match partitionKeyOf (read_result response) with
      | inl thrown =>
          read this ctx
          = (inl thrown, mkClientContext (partitionKeyDefinitionCache ctx) sent)
      | inr partitionKey =>
          read this ctx
          = (inr (mkContainerResponse (read_result response)
                    (read_headers response) (read_statusCode response) this),
             mkClientContext
               (<[url this := partitionKey]> (partitionKeyDefinitionCache ctx))
               sent)
      end
  end.
Proof.
  unfold ContainerRequests.read, clientRead. cbn.
  destruct (answer (length (reads ctx))) as [e|response]; [done|].
  by destruct (partitionKeyOf (read_result response)).
Qed.

(** A [read] that succeeds leaves an entry for the container and has sent
    one request. *)
Lemma read_success this ctx response :
  fst (read this ctx) = inr response →
  is_Some (partitionKeyDefinitionCache (snd (read this ctx)) !! url this)
  ∧ reads (snd (read this ctx))
    = (reads ctx
       ++ [(getPathFromLink (url this), getIdFromLink (url this))])%list.
Proof.
  pose proof (read_cases this ctx) as Hread. cbn zeta in Hread.
  destruct (answer (length (reads ctx))) as [e|r]; [by rewrite Hread|].
  destruct (partitionKeyOf (read_result r)) as [e|pk] eqn:Hpk;
    rewrite Hread; [done|].
  cbn. rewrite lookup_insert_eq. intros _. split; [by eexists|done].
Qed.

(** A [read] that fails leaves the cache as it was. *)
Lemma read_failure this ctx thrown :
  fst (read this ctx) = inl thrown →
  partitionKeyDefinitionCache (snd (read this ctx))
  = partitionKeyDefinitionCache ctx.
Proof.
  pose proof (read_cases this ctx) as Hread. cbn zeta in Hread.
  destruct (answer (length (reads ctx))) as [e|r]; [by rewrite Hread|].
  destruct (partitionKeyOf (read_result r)) as [e|pk] eqn:Hpk;
    by rewrite Hread.
Qed.

(** X19: a [read] that succeeds stores the partition key of the definition
    it received under the container's URL, replacing what was there, and
    touches no other entry of the cache; it sends exactly one request. *)
Theorem read_refreshes_cache this ctx response :
  fst (read this ctx) = inr response →
  let ctx' := snd (read this ctx) in
  partitionKeyOf (container_result response)
    = inr (cachedDefinition this ctx')
  ∧ is_Some (partitionKeyDefinitionCache ctx' !! url this)
  ∧ (∀ other, other ≠ url this →
       partitionKeyDefinitionCache ctx' !! other
       = partitionKeyDefinitionCache ctx !! other)
  ∧ reads ctx'
    = (reads ctx
       ++ [(getPathFromLink (url this), getIdFromLink (url this))])%list.
Proof.
  pose proof (read_cases this ctx) as Hread. cbn zeta in Hread.
  destruct (answer (length (reads ctx))) as [e|r]; [by rewrite Hread|].
  destruct (partitionKeyOf (read_result r)) as [e|pk] eqn:Hpk;
    rewrite Hread; [done|].
  cbn [fst snd]. intros [= <-]. cbn.
  unfold ContainerRequests.cachedDefinition. cbn.
  rewrite lookup_insert_eq. split_and!; [done|by eexists| |done].
  intros other Hother. by rewrite lookup_insert_ne.
Qed.

(** X20: a [read] that fails, because the service rejects it or because
    the body it sent back is [null], leaves the cache as it was; the
    request has been sent all the same. *)
Theorem read_failure_keeps_cache this ctx thrown :
  fst (read this ctx) = inl thrown →
  partitionKeyDefinitionCache (snd (read this ctx))
    = partitionKeyDefinitionCache ctx
  ∧ length (reads (snd (read this ctx))) = S (length (reads ctx))
  ∧ (answer (length (reads ctx)) = inl thrown
     ∨ ∃ response, answer (length (reads ctx)) = inr response
                   ∧ read_result response = JNull).
Proof.
  pose proof (read_cases this ctx) as Hread. cbn zeta in Hread.
  destruct (answer (length (reads ctx))) as [e|r] eqn:Hanswer.
  - rewrite Hread. cbn. intros [= ->].
    rewrite length_app. cbn. split_and!; [done|lia|by left].
  - destruct (partitionKeyOf (read_result r)) as [e|pk] eqn:Hpk;
      rewrite Hread; [|done].
    cbn. intros [= ->]. rewrite length_app. cbn.
    split_and!; [done|lia|]. right. exists r. split; [done|].
    by destruct (read_result r).
Qed.

(** With an entry for the container in the cache,
    [getPartitionKeyDefinition] answers from it. *)
Lemma getPartitionKeyDefinition_hit this ctx :
  is_Some (partitionKeyDefinitionCache ctx !! url this) →
  getPartitionKeyDefinition this ctx
  = (inr (mkResourceResponse (cachedDefinition this ctx) ∅ 0), ctx).
Proof.
  intros [cached Hcached]. unfold ContainerRequests.getPartitionKeyDefinition.
  by rewrite Hcached.
Qed.

Lemma getPartitionKeyDefinition_miss this ctx :
  partitionKeyDefinitionCache ctx !! url this = None →
  getPartitionKeyDefinition this ctx
  = match fst (read this ctx) with
    | inl thrown => (inl thrown, snd (read this ctx))
    | inr response =>
        (inr (mkResourceResponse (cachedDefinition this (snd (read this ctx)))
                (container_headers response) (container_statusCode response)),
         snd (read this ctx))
    end.
Proof.
  intros Hmiss. unfold ContainerRequests.getPartitionKeyDefinition.
  rewrite Hmiss. cbn [isSet]. by destruct (read this ctx) as [[e|r] ctx'].
Qed.

(** X21: after a [getPartitionKeyDefinition] that returned, any further
    one returns the same definition without sending anything; the first
    call itself sends at most one request. *)
Theorem getPartitionKeyDefinition_once this ctx first :
  fst (getPartitionKeyDefinition this ctx) = inr first →
  let ctx' := snd (getPartitionKeyDefinition this ctx) in
  getPartitionKeyDefinition this ctx'
    = (inr (mkResourceResponse (definition first) ∅ 0), ctx')
  ∧ (length (reads ctx') ≤ S (length (reads ctx)))%nat.
Proof.
  intros Hfirst ctx'. subst ctx'.
  destruct (partitionKeyDefinitionCache ctx !! url this) as [cached|] eqn:Hcache.
  - rewrite (getPartitionKeyDefinition_hit this ctx) in * by (by rewrite Hcache).
    cbn [fst snd] in *. injection Hfirst as <-. cbn [definition].
    split; [|lia]. apply getPartitionKeyDefinition_hit. by rewrite Hcache.
  - rewrite (getPartitionKeyDefinition_miss this ctx Hcache) in *.
    destruct (fst (read this ctx)) as [e|r] eqn:Hread; [done|].
    cbn [fst snd] in *. injection Hfirst as <-. cbn [definition].
    destruct (read_success this ctx r Hread) as (Hset & Hsent).
    split; [by apply getPartitionKeyDefinition_hit|].
    rewrite Hsent, length_app. cbn. lia.
Qed.

(** X22: on a miss, [getPartitionKeyDefinition] fails exactly when the
    [read] it makes fails, with the same error, and then caches
    nothing. *)
Theorem getPartitionKeyDefinition_miss_failure this ctx thrown :
  partitionKeyDefinitionCache ctx !! url this = None →
  (fst (getPartitionKeyDefinition this ctx) = inl thrown
   ↔ fst (read this ctx) = inl thrown)
  ∧ (fst (getPartitionKeyDefinition this ctx) = inl thrown →
     partitionKeyDefinitionCache (snd (getPartitionKeyDefinition this ctx))
       !! url this = None).
Proof.
  intros Hmiss. rewrite (getPartitionKeyDefinition_miss this ctx Hmiss).
  pose proof (read_failure this ctx thrown) as Hkeep.
  destruct (fst (read this ctx)) as [e|r] eqn:Hread; cbn [fst snd].
  - split; [split; by intros [= ->]|].
    intros [= ->]. by rewrite (Hkeep eq_refl).
  - split; [split; intros [=]|intros [=]].
Qed.

End WithCollaborators.

End ContainerRequestsProperties.

(** *** [read] and [getPartitionKeyDefinition] on a sample service *)

(** X19 at a first read. *)
Lemma read_refreshes_cache_witness :
  fst (Cases.read Cases.answersOnce Cases.freshContext)
  = inr (ContainerRequests.mkContainerResponse Cases.containerDefinition
           {[ "etag" := "7" ]} 200 Cases.orders)
  ∧ ContainerRequests.partitionKeyOf Cases.containerDefinition
    = inr (ContainerRequests.cachedDefinition Cases.createDocumentCollectionUri
             Cases.orders
             (snd (Cases.read Cases.answersOnce Cases.freshContext)))
  ∧ ContainerRequests.reads
      (snd (Cases.read Cases.answersOnce Cases.freshContext))
    = [("/dbs/shop/colls/orders", "dbs/shop/colls/orders")].
Proof.
  split; [reflexivity|].
  pose proof (ContainerRequestsProperties.read_refreshes_cache
                Cases.createDocumentCollectionUri Cases.getPathFromLink
                Cases.getIdFromLink Cases.answersOnce Cases.orders
                Cases.freshContext _ eq_refl) as (Hpk & _ & _ & Hsent).
  split; [exact Hpk|exact Hsent].
Defined.

(** X20 at a service that answers with an empty body. *)
Lemma read_failure_keeps_cache_witness :
  fst (Cases.read Cases.answersNull Cases.freshContext)
  = inl (mkError "TypeError" "Cannot read property 'partitionKey' of null")
  ∧ ContainerRequests.partitionKeyDefinitionCache
      (snd (Cases.read Cases.answersNull Cases.freshContext))
    = ∅
  ∧ length (ContainerRequests.reads
              (snd (Cases.read Cases.answersNull Cases.freshContext)))
    = 1%nat.
Proof.
  split; [reflexivity|].
  pose proof (ContainerRequestsProperties.read_failure_keeps_cache
                Cases.createDocumentCollectionUri Cases.getPathFromLink
                Cases.getIdFromLink Cases.answersNull Cases.orders
                Cases.freshContext _ eq_refl) as (Hcache & Hsent & _).
  split; [exact Hcache|exact Hsent].
Defined.

(** X21 at a service that answers once: the second call cannot have asked
    it again. *)
Lemma getPartitionKeyDefinition_once_witness :
  fst (Cases.getPartitionKeyDefinition Cases.answersOnce Cases.freshContext)
  = inr (ContainerRequests.mkResourceResponse
           (Some (JObj [("paths", JArr [JStr "/region"]); ("kind", JStr "Hash")]))
           {[ "etag" := "7" ]} 200)
  ∧ Cases.getPartitionKeyDefinition Cases.answersOnce
      (snd (Cases.getPartitionKeyDefinition Cases.answersOnce Cases.freshContext))
    = (inr (ContainerRequests.mkResourceResponse
              (Some (JObj [("paths", JArr [JStr "/region"]);
                           ("kind", JStr "Hash")]))
              ∅ 0),
       snd (Cases.getPartitionKeyDefinition Cases.answersOnce Cases.freshContext)).
Proof.
  split; [reflexivity|].
  exact (proj1 (ContainerRequestsProperties.getPartitionKeyDefinition_once
                  Cases.createDocumentCollectionUri Cases.getPathFromLink
                  Cases.getIdFromLink Cases.answersOnce Cases.orders
                  Cases.freshContext _ eq_refl)).
Defined.

(** X22 at a service that answers with an empty body. *)
Lemma getPartitionKeyDefinition_miss_failure_witness :
  ContainerRequests.partitionKeyDefinitionCache Cases.freshContext
    !! ContainerRequests.url Cases.createDocumentCollectionUri Cases.orders
  = None
  ∧ fst (Cases.read Cases.answersNull Cases.freshContext)
    = inl (mkError "TypeError" "Cannot read property 'partitionKey' of null")
  ∧ fst (Cases.getPartitionKeyDefinition Cases.answersNull Cases.freshContext)
    = inl (mkError "TypeError" "Cannot read property 'partitionKey' of null").
Proof.
  split; [reflexivity|]. split; [reflexivity|].
  exact (proj2 (proj1 (ContainerRequestsProperties.getPartitionKeyDefinition_miss_failure
                         Cases.createDocumentCollectionUri Cases.getPathFromLink
                         Cases.getIdFromLink Cases.answersNull Cases.orders
                         Cases.freshContext
                         (mkError "TypeError"
                            "Cannot read property 'partitionKey' of null")
                         eq_refl))
           eq_refl).
Defined.

(* ===================================================================== *)
(** ** Further properties of the [Container] class *)
(* ===================================================================== *)

Module ResourcesFurther.
Import Resources.

(** X23: the protected accessors [__triggers] and [__userDefinedFunctions]
    cache like the public ones: a second read, whatever calls come in
    between, returns the object of the first and constructs nothing, and
    over any run of calls at most one object of each of the two classes
    is constructed for a container. *)
Theorem protected_accessors_idempotent (this : loc) (σ : Store) (cs : list Call) :
  (let first := __triggers this σ in
   let again := __triggers this (performAll cs (snd first)) in
   is_Some (fst first) ∧ fst again = fst first
   ∧ snd again = performAll cs (snd first))
  ∧ (let first := __userDefinedFunctions this σ in
     let again := __userDefinedFunctions this (performAll cs (snd first)) in
     is_Some (fst first) ∧ fst again = fst first
     ∧ snd again = performAll cs (snd first))
  ∧ (constructions Triggers this (performAll cs σ)
     ≤ S (constructions Triggers this σ))%nat
  ∧ (constructions UserDefinedFunctions this (performAll cs σ)
     ≤ S (constructions UserDefinedFunctions this σ))%nat.
Proof.
  rewrite ResourcesProperties.triggers_lazily,
    ResourcesProperties.userDefinedFunctions_lazily.
  split_and!;
    first [apply ResourcesProperties.lazily_idempotent
          |apply ResourcesProperties.constructed_at_most_once];
    unfold cached; rewrite !elem_of_cons; tauto.
Qed.

Lemma new_twice (o : Object) (σ : Store) :
  let first := prod_map Some (λ σ : Store, σ) (new o σ) in
  let again := prod_map Some (λ σ : Store, σ) (new o (snd first)) in
  fst first = Some (length (objects σ))
  ∧ fst again = Some (S (length (objects σ)))
  ∧ fst first ≠ fst again
  ∧ containers (snd again) = containers σ
  ∧ is_Some (objects (snd again) !! length (objects σ))
  ∧ objects (snd again) !! length (objects σ)
    = objects (snd again) !! S (length (objects σ)).
Proof.
  cbn. rewrite length_app. cbn [length]. rewrite Nat.add_1_r.
  assert (((objects σ ++ [o]) ++ [o])%list !! length (objects σ) = Some o) as Hfirst.
  { rewrite <- app_assoc. by apply list_lookup_middle. }
  assert (((objects σ ++ [o]) ++ [o])%list !! S (length (objects σ)) = Some o)
    as Hagain.
  { apply list_lookup_middle. rewrite length_app. cbn. lia. }
  rewrite Hfirst, Hagain.
  split_and!; [done|done| |done|by eexists|done].
  intros [= Heq]. by apply n_Sn in Heq.
Qed.

(** X24: [item], [conflict], [storedProcedure], [__trigger] and
    [__userDefinedFunction] cache nothing: the same call made twice
    constructs two objects, alike but distinct, and leaves every
    container's fields as they are. *)
Theorem factories_construct_anew (c : Call) (σ : Store) :
  isFactory c = true →
  let first := perform c σ in
  let again := perform c (snd first) in
  fst first = Some (length (objects σ))
  ∧ fst again = Some (S (length (objects σ)))
  ∧ fst first ≠ fst again
  ∧ containers (snd again) = containers σ
  ∧ is_Some (objects (snd again) !! length (objects σ))
  ∧ objects (snd again) !! length (objects σ)
    = objects (snd again) !! S (length (objects σ)).
Proof.
  intros Hfactory. destruct c as [| | | | |this id pk|this id|this id|this id|this id];
    try done.
  - exact (new_twice (mkObject Item this (Some id) pk (clientContext (this_ this σ))) σ).
  - exact (new_twice (mkObject UserDefinedFunction this (Some id) None
                        (clientContext (this_ this σ))) σ).
  - exact (new_twice (mkObject Conflict this (Some id) None
                        (clientContext (this_ this σ))) σ).
  - exact (new_twice (mkObject StoredProcedure this (Some id) None
                        (clientContext (this_ this σ))) σ).
  - exact (new_twice (mkObject Trigger this (Some id) None
                        (clientContext (this_ this σ))) σ).
Qed.

End ResourcesFurther.

(** X24 at two calls of [item] with the same id. *)
Lemma factories_construct_anew_witness :
  isFactory (Resources.CallItem 0%nat "a1" (Some "eu")) = true
  ∧ fst (Resources.perform (Resources.CallItem 0%nat "a1" (Some "eu"))
           (Resources.mkStore ∅ []))
    = Some 0%nat
  ∧ fst (Resources.perform (Resources.CallItem 0%nat "a1" (Some "eu"))
           (snd (Resources.perform (Resources.CallItem 0%nat "a1" (Some "eu"))
                   (Resources.mkStore ∅ []))))
    = Some 1%nat.
Proof.
  split; [reflexivity|].
  pose proof (ResourcesFurther.factories_construct_anew
                (Resources.CallItem 0%nat "a1" (Some "eu"))
                (Resources.mkStore ∅ []) eq_refl) as (Hfirst & Hagain & _).
  split; [exact Hfirst|exact Hagain].
Defined.
